(** * awesome-starlight: the list updater ([scripts/update-list.js])

    A shallow embedding of the class [AwesomeStarlightUpdater]: the string
    helpers it relies on, the matcher ([isDuplicate], [isSameTitle],
    [isLikelySameTheme]), the link validator with its [processedUrls] set,
    the fallback categorisation and the data collection pipeline.

    Conventions of the embedding.
    - A JavaScript string is a [string]; a character is a code unit in the
      range 0..255 (Latin-1), with the case mapping and the white space of
      that range.
    - A property that may be absent ([undefined] or [null]) is an
      [option string]; [None] and [Some ""] are the falsy values.
    - A value produced by [&&] and [||] over strings and booleans is a
      [value]; its truthiness is [truthyV].
    - Asynchronous methods are functions in a state-and-exception monad over
      the updater's fields and the log of the requests sent so far; awaited
      calls complete in program order. *)

From Stdlib Require Import String Ascii NArith ZArith List Bool Lia Permutation.
From stdpp Require Import base gmap strings pretty.

Local Open Scope string_scope.
Local Open Scope bool_scope.

(** ** JavaScript string primitives *)

Module Js.

Definition code (c : ascii) : N := N_of_ascii c.

Definition in_range (lo hi : N) (c : ascii) : bool :=
  (lo <=? code c)%N && (code c <=? hi)%N.

(** White space of [String.prototype.trim] and of the class [\s]. *)
Definition isSpace (c : ascii) : bool :=
  in_range 9 13 c || (code c =? 32)%N || (code c =? 160)%N.

Definition isUpper (c : ascii) : bool :=
  in_range 65 90 c || (in_range 192 222 c && negb (code c =? 215)%N).

Definition lowerChar (c : ascii) : ascii :=
  if isUpper c then ascii_of_N (code c + 32) else c.

Fixpoint toLowerCase (s : string) : string :=
  match s with
  | EmptyString => EmptyString
  | String c s' => String (lowerChar c) (toLowerCase s')
  end.

Definition isEmpty (s : string) : bool :=
  match s with EmptyString => true | String _ _ => false end.

Fixpoint trimStart (s : string) : string :=
  match s with
  | EmptyString => EmptyString
  | String c s' => if isSpace c then trimStart s' else s
  end.

Fixpoint trimEnd (s : string) : string :=
  match s with
  | EmptyString => EmptyString
  | String c s' =>
      let r := trimEnd s' in
      if isSpace c && isEmpty r then EmptyString else String c r
  end.

Definition trim (s : string) : string := trimEnd (trimStart s).

Definition startsWith (s p : string) : bool := String.prefix p s.

Fixpoint includes (s sub : string) : bool :=
  String.prefix sub s ||
  match s with
  | EmptyString => false
  | String _ s' => includes s' sub
  end.

Fixpoint endsWith (s suf : string) : bool :=
  String.eqb s suf ||
  match s with
  | EmptyString => false
  | String _ s' => endsWith s' suf
  end.

(** [dropPrefix p s] is the rest of [s] after the literal [p], when [s]
    starts with [p]. *)
Fixpoint dropPrefix (p s : string) : option string :=
  match p, s with
  | EmptyString, _ => Some s
  | String a p', String b s' => if Ascii.eqb a b then dropPrefix p' s' else None
  | String _ _, EmptyString => None
  end.

(** The longest prefix of characters satisfying [f], and the rest. *)
Fixpoint span (f : ascii -> bool) (s : string) : string * string :=
  match s with
  | EmptyString => (EmptyString, EmptyString)
  | String c s' =>
      if f c then let (a, b) := span f s' in (String c a, b)
      else (EmptyString, s)
  end.

(** [s.replace(re, "")] for a global regular expression [re] that never
    matches the empty string: [m s] is the length of the match of [re] at
    the start of [s], if any.  The scan goes left to right and resumes after
    each match; [skip] counts the characters of the current match still to
    be dropped. *)
Fixpoint removeAll (m : string -> option nat) (s : string) (skip : nat) : string :=
  match s with
  | EmptyString => EmptyString
  | String c s' =>
      match skip with
      | S k => removeAll m s' k
      | O =>
          match m s with
          | Some (S k) => removeAll m s' k
          | _ => String c (removeAll m s' 0)
          end
      end
  end.

Definition literal (p : string) (s : string) : option nat :=
  if String.prefix p s then Some (String.length p) else None.

Definition charClass (f : ascii -> bool) (s : string) : option nat :=
  match s with
  | String c _ => if f c then Some 1 else None
  | EmptyString => None
  end.

(** [s.replace(/\/$/, "")]: without the [m] flag [$] is the end of input,
    so at most the last character goes. *)
Fixpoint stripTrailingSlash (s : string) : string :=
  match s with
  | EmptyString => EmptyString
  | String c s' =>
      if isEmpty s' then (if Ascii.eqb c "/" then EmptyString else s)
      else String c (stripTrailingSlash s')
  end.

(** [parts = s.split("/")], then [parts.length > 1 ? parts[1] : s]. *)
Definition secondPart (s : string) : string :=
  let (_, rest) := span (fun c => negb (Ascii.eqb c "/")) s in
  match rest with
  | String _ after => fst (span (fun c => negb (Ascii.eqb c "/")) after)
  | EmptyString => s
  end.

(** Falsy and truthy optional strings; [a || b] and [a || "literal"]. *)
Definition truthy (v : option string) : bool :=
  match v with
  | Some s => negb (isEmpty s)
  | None => false
  end.

Definition orElse (a b : option string) : option string :=
  if truthy a then a else b.

Definition orStr (a : option string) (d : string) : string :=
  match a with
  | Some s => if isEmpty s then d else s
  | None => d
  end.

(** Results of [&&] and [||] over strings and booleans. *)
Inductive value : Type :=
| Str (s : string)
| Bool (b : bool).

Definition truthyV (v : value) : bool :=
  match v with
  | Str s => negb (isEmpty s)
  | Bool b => b
  end.

Definition andV (x y : value) : value := if truthyV x then y else x.
Definition orV (x y : value) : value := if truthyV x then x else y.

End Js.

Import Js.

(** ** Items *)

(** The properties the matcher reads from the objects it is handed:
    [title], [url], [homepage], [repo]; [name] and [description] are carried
    along. *)
Record Item : Type := mkItem {
  title : option string;
  name : option string;
  url : option string;
  homepage : option string;
  repo : option string;
  description : option string
}.

(** [{ title, url, description }], the shape of every catalog entry. *)
Definition entry (t u : option string) (d : string) : Item :=
  {| title := t; name := None; url := u; homepage := None; repo := None;
     description := Some d |}.

(** ** Matcher *)

(** The inline expression [.toLowerCase().replace(/\/$/, "")] that
    [isDuplicate] applies to both addresses. *)
Definition normalizeUrl (u : string) : string :=
  stripTrailingSlash (toLowerCase u).

(** The regular expression [/github\.com\/([^/]+)\/([^/#?]+)/] tried at the
    start of [s]: the owner is the longest run without a slash, the
    repository the longest run without slash, hash or question mark; both
    are non-empty. *)
Definition notSlash (c : ascii) : bool := negb (Ascii.eqb c "/").

Definition repoChar (c : ascii) : bool :=
  negb (Ascii.eqb c "/" || Ascii.eqb c "#" || Ascii.eqb c "?").

Definition githubAt (s : string) : option (string * string) :=
  match dropPrefix "github.com/" s with
  | None => None
  | Some rest =>
      let (owner, rest1) := span notSlash rest in
      if isEmpty owner then None
      else
        match rest1 with
        | String _ rest2 =>
            let (rp, _) := span repoChar rest2 in
            if isEmpty rp then None else Some (owner, rp)
        | EmptyString => None
        end
  end.

(** [s.match(re)]: the leftmost position where the expression matches. *)
Fixpoint githubMatch (s : string) : option (string * string) :=
  match githubAt s with
  | Some r => Some r
  | None =>
      match s with
      | EmptyString => None
      | String _ s' => githubMatch s'
      end
  end.

(** [u?.match(/github\.com\/[^/]+\/([^/#?]+)/)?.[1]] *)
Definition getRepo (u : option string) : option string :=
  match u with
  | None => None
  | Some s => option_map snd (githubMatch s)
  end.

Definition isDuplicate (newItem officialItem : Item) : bool :=
  let newUrl := normalizeUrl (orStr (orElse (url newItem) (homepage newItem)) "") in
  let officialUrl := normalizeUrl (orStr (url officialItem) "") in
  if negb (isEmpty newUrl) && negb (isEmpty officialUrl) && String.eqb newUrl officialUrl
  then true
  else
    let newRepo := getRepo (orElse (url newItem) (homepage newItem)) in
    let officialRepo := getRepo (url officialItem) in
    match newRepo, officialRepo with
    | Some r1, Some r2 => String.eqb r1 r2
    | _, _ => false
    end.

Definition isSameTitle (newItem officialItem : Item) : value :=
  let normalize (t : option string) := toLowerCase (trim (orStr t "")) in
  andV (Str (normalize (title newItem)))
       (Bool (String.eqb (normalize (title newItem)) (normalize (title officialItem)))).

(** The match lengths of [/https?:\/\/(www\.)?/] and of [/docs?/]. *)
Definition protocolAt (s : string) : option nat :=
  match dropPrefix "http" s with
  | None => None
  | Some r =>
      let (n, r1) := match dropPrefix "s" r with
                     | Some r1 => (5, r1)
                     | None => (4, r)
                     end in
      match dropPrefix "://" r1 with
      | None => None
      | Some r2 => if String.prefix "www." r2 then Some (n + 3 + 4) else Some (n + 3)
      end
  end.

Definition docAt (s : string) : option nat :=
  if String.prefix "docs" s then Some 4
  else if String.prefix "doc" s then Some 3
  else None.

Definition isSeparator (c : ascii) : bool :=
  isSpace c || Ascii.eqb c "." || Ascii.eqb c "_" || Ascii.eqb c "-".

Definition isAlnumLower (c : ascii) : bool :=
  in_range 97 122 c || in_range 48 57 c.

Definition normalizeThemeKey (input : option string) : string :=
  let s0 := toLowerCase (orStr input "") in
  let s1 := removeAll protocolAt s0 0 in
  let s2 := removeAll (literal "starlight") s1 0 in
  let s3 := removeAll (literal "theme") s2 0 in
  let s4 := removeAll (literal "astro") s3 0 in
  let s5 := removeAll docAt s4 0 in
  let s6 := removeAll (charClass isSeparator) s5 0 in
  let s7 := removeAll (charClass (fun c => negb (isAlnumLower c))) s6 0 in
  trim s7.

Definition extractRepoSlug (u : option string) : string :=
  orStr (getRepo u) "".

Definition keysEqual (x y : string) : value :=
  andV (andV (Str x) (Str y))
       (Bool (String.eqb x y || includes x y || includes y x)).

Definition isLikelySameTheme (a b : Item) : value :=
  let keyA := normalizeThemeKey (title a) in
  let keyB := normalizeThemeKey (title b) in
  let repoKeyA :=
    normalizeThemeKey (Some (extractRepoSlug (orElse (orElse (url a) (homepage a)) (repo a)))) in
  let repoKeyB :=
    normalizeThemeKey (Some (extractRepoSlug (orElse (orElse (url b) (homepage b)) (repo b)))) in
  orV (orV (orV (keysEqual keyA keyB) (keysEqual keyA repoKeyB))
           (keysEqual keyB repoKeyA))
      (andV (andV (Str repoKeyA) (Str repoKeyB)) (keysEqual repoKeyA repoKeyB)).


(** ** The updater's state, the network and the monad of its methods *)

Record OfficialData : Type := mkData {
  plugins : list Item;
  themes : list Item;
  tools : list Item;
  videos : list Item;
  articles : list Item;
  showcases : list Item
}.

Inductive Method : Type := GET | HEAD | POST.

(** A request as [fetch] receives it: method, address, the token of the
    [Authorization] header when one is sent, and the variable part of the
    body. *)
Record Request : Type := mkRequest {
  method : Method;
  target : string;
  token : option string;
  payload : string
}.

Record Response : Type := mkResponse {
  status : Z;
  body : string
}.

(** [response.ok] *)
Definition ok (r : Response) : bool :=
  (200 <=? status r)%Z && (status r <=? 299)%Z.

(** The fields of the updater object, and the requests sent so far (oldest
    first). *)
Record State : Type := mkState {
  officialData : OfficialData;
  processedUrls : gset string;
  requests : list Request
}.

Inductive result (A : Type) : Type :=
| Ok (a : A)
| Throw.
Arguments Ok {A} a.
Arguments Throw {A}.

Definition M (A : Type) : Type := State -> result A * State.

Definition ret {A} (a : A) : M A := fun st => (Ok a, st).
Definition throw {A} : M A := fun st => (Throw, st).

Definition bind {A B} (m : M A) (k : A -> M B) : M B :=
  fun st =>
    match m st with
    | (Ok a, st') => k a st'
    | (Throw, st') => (Throw, st')
    end.

(** [try { m } catch { h }] *)
Definition tryCatch {A} (m h : M A) : M A :=
  fun st =>
    match m st with
    | (Ok a, st') => (Ok a, st')
    | (Throw, st') => h st'
    end.

(** A promise that is started now and inspected later. *)
Definition settle {A} (m : M A) : M (result A) :=
  fun st => let (r, st') := m st in (Ok r, st').

Definition await {A} (r : result A) : M A :=
  match r with
  | Ok a => ret a
  | Throw => throw
  end.

Definition get : M State := fun st => (Ok st, st).
Definition put (st : State) : M unit := fun _ => (Ok tt, st).

Notation "'let*' x ':=' m 'in' k" := (bind m (fun x => k))
  (at level 10, x pattern, m at level 100, k at level 200).

Fixpoint mapM {A B} (f : A -> M B) (l : list A) : M (list B) :=
  match l with
  | [] => ret []
  | x :: l' =>
      let* y := f x in
      let* ys := mapM f l' in
      ret (y :: ys)
  end.

(** A computation that never touches [officialData]. *)
Definition keepsData {A} (m : M A) : Prop :=
  forall st r st', m st = (r, st') -> officialData st' = officialData st.

Definition setOfficialData (d : OfficialData) : M unit :=
  let* st := get in
  put {| officialData := d; processedUrls := processedUrls st; requests := requests st |}.

Definition addProcessed (u : string) : M unit :=
  let* st := get in
  put {| officialData := officialData st;
         processedUrls := {[ u ]} ∪ processedUrls st;
         requests := requests st |}.

Definition SOURCES_plugins : string :=
  "https://raw.githubusercontent.com/withastro/starlight/refs/heads/main/docs/src/content/docs/resources/plugins.mdx".
Definition SOURCES_themes : string :=
  "https://raw.githubusercontent.com/withastro/starlight/refs/heads/main/docs/src/content/docs/resources/themes.mdx".
Definition SOURCES_community : string :=
  "https://raw.githubusercontent.com/withastro/starlight/refs/heads/main/docs/src/content/docs/resources/community-content.mdx".
Definition SOURCES_showcases : string :=
  "https://raw.githubusercontent.com/withastro/starlight/refs/heads/main/docs/src/components/showcase-sites.astro".
Definition ASTRO_SHOWCASE_API : string :=
  "https://api.github.com/repos/withastro/astro.build/contents/src/content/showcase".
Definition MODELS_API : string :=
  "https://models.inference.ai.azure.com/chat/completions".

(** [`https://registry.npmjs.org/-/v1/search?text=${encodeURIComponent(query)}&size=250`]
    for the two queries of [fetchSupplementaryNPM]. *)
Definition NPM_SEARCH_1 : string :=
  "https://registry.npmjs.org/-/v1/search?text=starlight-&size=250".
Definition NPM_SEARCH_2 : string :=
  "https://registry.npmjs.org/-/v1/search?text=%40astrojs%2Fstarlight&size=250".

(** What the parsers return: [{ title, url, description }] with three
    strings. *)
Record Link : Type := mkLink {
  l_title : string;
  l_url : string;
  l_description : string
}.

Definition ofLink (l : Link) : Item :=
  entry (Some (l_title l)) (Some (l_url l)) (l_description l).

(** A file of the showcase listing, a decoded showcase document, a package
    of a registry search, and the package record the updater keeps. *)
Record ListedFile : Type := mkFile {
  f_name : string;
  f_download_url : string
}.

Record SiteDoc : Type := mkSite {
  y_starlight : bool;          (* data.categories?.includes("starlight") *)
  y_title : option string;
  y_url : option string
}.

Record SearchHit : Type := mkHit {
  h_name : string;
  h_description : option string;
  h_homepage : option string;      (* links?.homepage *)
  h_repository : option string;    (* links?.repository *)
  h_keywords : option (list string)
}.

Record Package : Type := mkPackage {
  pkg_name : string;
  pkg_description : string;
  pkg_homepage : option string;
  pkg_keywords : list string
}.

(** A label read from the categorisation object by [categorization[i] ||
    categorization[String(i)]]: absent or falsy ([null], [false], [0], the
    empty string), a string, an array (each element [Some s] when it is the
    string [s], [None] when it is anything else), or another truthy value (a
    number, [true], an object), on which [includes] is not a function. *)
Inductive Label : Type :=
| LAbsent
| LString (s : string)
| LArray (elems : list (option string))
| LOther.

Record Categorized : Type := mkCategorized {
  c_plugins : list Item;
  c_themes : list Item;
  c_tools : list Item
}.

Inductive ExitStatus : Type := Completed | Exit1.

(** ** Categories, origins and sample environments *)

(** The keys of [officialData]. *)
Inductive Category : Type :=
| Plugins | Themes | Tools | Videos | Articles | Showcases.

Definition itemsOf (c : Category) (d : OfficialData) : list Item :=
  match c with
  | Plugins => plugins d
  | Themes => themes d
  | Tools => tools d
  | Videos => videos d
  | Articles => articles d
  | Showcases => showcases d
  end.

(** The origins of data: the four official pages, the Astro showcase
    listing and the two registry searches. *)
Inductive Origin : Type :=
| OfficialPlugins | OfficialThemes | OfficialCommunity | OfficialShowcases
| AstroShowcase
| NpmSearch1 | NpmSearch2.

(** A fetch fails with a network error ([None]) or an HTTP error (a
    response that is not [ok]). *)
Definition fetchFails (r : option Response) : bool :=
  match r with
  | None => true
  | Some resp => negb (ok resp)
  end.

Definition logRequest (r : Request) (st : State) : State :=
  {| officialData := officialData st;
     processedUrls := processedUrls st;
     requests := requests st ++ [r] |}.

Module Fixtures.

Definition emptyData : OfficialData := mkData [] [] [] [] [] [].
Definition emptyState : State := mkState emptyData ∅ [].

Definition noLinks : string -> list Link := fun _ => [].
Definition noListing : string -> option (list ListedFile) := fun _ => None.
Definition noYaml : string -> option SiteDoc := fun _ => None.
Definition noContent : string -> option string := fun _ => None.
Definition noLabels : string -> option (nat -> Label) := fun _ => None.
Definition noFork : string -> option bool := fun _ => Some false.
Definition keepReadme : OfficialData -> State -> result unit * State :=
  fun _ st => (Ok tt, st).

Definition byteCompare (a b : string) : Z :=
  match String.compare a b with
  | Lt => (-1)%Z
  | Eq => 0%Z
  | Gt => 1%Z
  end.

(** Every address answers 404. *)
Definition deadNet : list Request -> Request -> option Response :=
  fun _ _ => Some (mkResponse 404 "").

(** No request gets through. *)
Definition downNet : list Request -> Request -> option Response :=
  fun _ _ => None.

(** The official plugin page is unreachable, everything else answers 200
    with an empty body. *)
Definition pluginsDownNet : list Request -> Request -> option Response :=
  fun _ r =>
    if String.eqb (target r) SOURCES_plugins then None
    else Some (mkResponse 200 "").

(** The registry cannot be reached; everything else answers 200 with an
    empty body. *)
Definition registryDownNet : list Request -> Request -> option Response :=
  fun _ r =>
    if String.eqb (target r) NPM_SEARCH_1 then Some (mkResponse 503 "")
    else Some (mkResponse 200 "").

(** Two packages of one repository: the official plugin page lists one
    plugin, the other pages are empty, the showcase listing answers 404, the
    first registry search returns the listed plugin and two packages that
    share a live home page. *)
Definition blogLink : Link :=
  mkLink "starlight-blog" "https://github.com/HiDeoo/starlight-blog" "Add a blog".
Definition blogHit : SearchHit :=
  mkHit "starlight-blog" (Some "Astro Starlight plugin to add a blog")
        (Some "https://github.com/HiDeoo/starlight-blog/tree/main/packages/starlight-blog")
        None None.
Definition monoA : SearchHit :=
  mkHit "starlight-a" (Some "Astro Starlight plugin a")
        (Some "https://example.com/mono") None None.
Definition monoB : SearchHit :=
  mkHit "starlight-b" (Some "Astro Starlight plugin b")
        (Some "https://example.com/mono") None None.

Definition monoNet : list Request -> Request -> option Response :=
  fun _ r =>
    if String.eqb (target r) ASTRO_SHOWCASE_API then Some (mkResponse 404 "")
    else if String.eqb (target r) SOURCES_plugins then Some (mkResponse 200 "cards")
    else if String.eqb (target r) NPM_SEARCH_1 then Some (mkResponse 200 "hits")
    else Some (mkResponse 200 "").

Definition monoCards (b : string) : list Link :=
  if String.eqb b "cards" then [blogLink] else [].

Definition monoSearch (b : string) : option (list SearchHit) :=
  Some (if String.eqb b "hits" then [blogHit; monoA; monoB] else []).

Definition noSearch : string -> option (list SearchHit) := fun _ => Some [].

Definition entryA : Item :=
  entry (Some "starlight-a") (Some "https://example.com/mono") "Astro Starlight plugin a".
Definition entryB : Item :=
  entry (Some "starlight-b") (Some "https://example.com/mono") "Astro Starlight plugin b".

(** Packages for the fallback categorisation. *)
Definition nova : Package := mkPackage "starlight-theme-nova" "" None [].
Definition i18n : Package :=
  mkPackage "starlight-i18n" "VS Code extension for translating Starlight docs" None [].
Definition toPdf : Package :=
  mkPackage "starlight-to-pdf" "A CLI tool to export pages" None [].
Definition blog : Package := mkPackage "starlight-blog" "Add a blog" None [].

(** Items for the matcher. *)
Definition blank : Item := mkItem None None None None None None.
Definition homepageOnly : Item :=
  mkItem None (Some "pkg") None (Some "https://x.dev") None None.
Definition urlOnly : Item := entry (Some "X") (Some "https://x.dev") "".
Definition galaxyTitle : Item := entry (Some "Starlight Theme Galaxy") (Some "https://galaxy.dev") "".
Definition galaxyRepo : Item :=
  entry (Some "A dark theme") (Some "https://github.com/someone/starlight-galaxy-theme") "".

(** A network in which every request is answered 200 with its own address
    as body, and decoders that tell the bodies apart: the official plugin
    page lists one plugin and the official showcase page one site; the
    showcase listing has three documents, of which the second has the
    address of the first and the third the address of the official site;
    the first registry search returns the listed plugin and two packages
    that share a home page. *)
Definition echoNet : list Request -> Request -> option Response :=
  fun _ r => Some (mkResponse 200 (target r)).

Definition siteC : Link := mkLink "Site C" "https://C.dev/" "Listed on the official page".

Definition echoCards (b : string) : list Link :=
  if String.eqb b SOURCES_plugins then [blogLink] else [].

Definition echoShowcases (b : string) : list Link :=
  if String.eqb b SOURCES_showcases then [siteC] else [].

Definition echoListing (b : string) : option (list ListedFile) :=
  if String.eqb b ASTRO_SHOWCASE_API
  then Some [mkFile "a.yml" "dl/a"; mkFile "b.yml" "dl/b"; mkFile "c.yml" "dl/c";
             mkFile "readme.md" "dl/readme"]
  else None.

Definition echoYaml (b : string) : option SiteDoc :=
  if String.eqb b "dl/a" then Some (mkSite true (Some "Site A") (Some "https://a.dev"))
  else if String.eqb b "dl/b"
       then Some (mkSite true (Some "Site A again") (Some "https://a.dev/"))
  else if String.eqb b "dl/c" then Some (mkSite true (Some "Site C") (Some "https://c.dev"))
  else None.

Definition echoSearch (b : string) : option (list SearchHit) :=
  Some (if String.eqb b NPM_SEARCH_1 then [blogHit; monoA; monoB] else []).

Definition siteA : Item := entry (Some "Site A") (Some "https://a.dev") "".

(** An official page that lists one repository twice. *)
Definition blogTwin : Link :=
  mkLink "Starlight Blog" "https://github.com/HiDeoo/starlight-blog/" "The same repository".

Definition twinCards (b : string) : list Link :=
  if String.eqb b SOURCES_plugins then [blogLink; blogTwin] else [].

(** A categorisation service whose answer holds an object in which label 0
    is the array of the one string "theme", label 1 an array of the string
    "themes" and a [null], label 2 a number, and the other labels are
    absent. *)
Definition replyContent : string -> option string := fun _ => Some "Labels: {...}".

Definition arrayLabels (i : nat) : Label :=
  match i with
  | 0 => LArray [Some "theme"]
  | 1 => LArray [Some "themes"; None]
  | 2 => LOther
  | _ => LAbsent
  end.

Definition arrayJson (js : string) : option (nat -> Label) :=
  if String.eqb js "{...}" then Some arrayLabels else None.

End Fixtures.

(** ** The README *)

Module Readme.

Definition nl : string := String (ascii_of_nat 10) EmptyString.

(** [s.indexOf(pat)]; [None] stands for -1. *)
Fixpoint indexOf (s pat : string) : option nat :=
  if String.prefix pat s then Some 0
  else
    match s with
    | EmptyString => None
    | String _ s' => option_map S (indexOf s' pat)
    end.

(** [s.substring(0, n)] and [s.substring(n)]. *)
Fixpoint take (n : nat) (s : string) : string :=
  match n, s with
  | S n', String c s' => String c (take n' s')
  | _, _ => EmptyString
  end.

Fixpoint drop (n : nat) (s : string) : string :=
  match n, s with
  | S n', String _ s' => drop n' s'
  | _, _ => s
  end.

Definition formatMarkdownItem (item : Item) : option string :=
  if negb (truthy (title item)) || negb (truthy (url item)) then None
  else
    Some ("- [" ++ orStr (title item) "" ++ "](" ++ orStr (url item) "" ++ ")"
          ++ (if truthy (description item)
              then " - " ++ orStr (description item) ""
              else "")).

(** [.map((i) => this.formatMarkdownItem(i)).filter(Boolean)] *)
Fixpoint formatted (items : list Item) : list string :=
  match items with
  | [] => []
  | i :: items' =>
      match formatMarkdownItem i with
      | Some line => line :: formatted items'
      | None => formatted items'
      end
  end.

Definition addSection (sections : list string) (heading : string) (items : list Item)
    (desc : string) : list string :=
  match items with
  | [] => sections
  | _ :: _ =>
      let md := String.concat nl (formatted items) in
      let text := "## " ++ heading ++ nl ++ nl ++ desc ++ md in
      (sections ++ [text])%list
  end.

Definition generateMarkdown (d : OfficialData) : string :=
  let sections := [] in
  let sections := addSection sections "Plugins & Integrations" (plugins d) "" in
  let sections :=
    addSection sections "Themes" (themes d)
      ("Discover beautiful themes for your Starlight documentation:" ++ nl ++ nl) in
  let sections :=
    addSection sections "Tools" (tools d)
      ("Development tools and utilities for Starlight:" ++ nl ++ nl) in
  let sections :=
    addSection sections "Showcases" (showcases d)
      ("Real-world documentation sites built with Starlight:" ++ nl ++ nl) in
  let sections :=
    addSection sections "Videos" (videos d)
      ("Video tutorials and screencasts:" ++ nl ++ nl) in
  let sections := addSection sections "Articles & Case Studies" (articles d) "" in
  String.concat (nl ++ nl) sections.

Definition startMarker : string := "<!-- AUTOMATED_CONTENT_START -->".
Definition endMarker : string := "<!-- AUTOMATED_CONTENT_END -->".

(** The text [updateReadme] computes from the README it has read and the
    generated content; [None] when it throws for a missing marker. *)
Definition spliceReadme (readme newContent : string) : option string :=
  match indexOf readme startMarker, indexOf readme endMarker with
  | Some startIndex, Some endIndex =>
      let before := take (startIndex + String.length startMarker) readme in
      let after := drop endIndex readme in
      Some (before ++ nl ++ nl ++ newContent ++ nl ++ nl ++ after)
  | _, _ => None
  end.

(** [updateReadme] on a README with the text [readme]: the text of the file
    afterwards, or [Throw].  In a dry run nothing is written. *)
Definition updateReadme (DRY_RUN : bool) (readme : string) (d : OfficialData)
    : result string :=
  match spliceReadme readme (generateMarkdown d) with
  | None => Throw
  | Some readme' => if DRY_RUN then Ok readme else Ok readme'
  end.

(** The heading of the section of a category. *)
Definition heading (c : Category) : string :=
  match c with
  | Plugins => "Plugins & Integrations"
  | Themes => "Themes"
  | Tools => "Tools"
  | Showcases => "Showcases"
  | Videos => "Videos"
  | Articles => "Articles & Case Studies"
  end.

End Readme.

(** ** The parsers of the component tags *)

Module Parsers.

(** The double and the single quote, the class of the attribute
    expressions. *)
Definition isQuote (c : ascii) : bool :=
  Ascii.eqb c (ascii_of_nat 34) || Ascii.eqb c "'".

Definition notGt (c : ascii) : bool := negb (Ascii.eqb c ">").

(** The regular expression of an attribute, [NAME=] followed by a quote, a
    group of one or more characters that are not quotes, and a quote, tried
    at the start of [s]: the group is the longest run without a quote; it is
    non-empty and a quote follows it. *)
Definition attrAt (name s : string) : option string :=
  match dropPrefix (name ++ "=") s with
  | Some (String q r) =>
      if isQuote q then
        let (y, z) := span (fun c => negb (isQuote c)) r in
        if isEmpty y then None
        else
          match z with
          | String _ _ => Some y
          | EmptyString => None
          end
      else None
  | _ => None
  end.

(** [attrs.match(re)?.[1]]: the group of the leftmost match. *)
Fixpoint attr (name s : string) : option string :=
  match attrAt name s with
  | Some v => Some v
  | None =>
      match s with
      | EmptyString => None
      | String _ s' => attr name s'
      end
  end.

(** A string without its last character, and that character. *)
Fixpoint unsnoc (s : string) : option (string * ascii) :=
  match s with
  | EmptyString => None
  | String c s' =>
      match unsnoc s' with
      | None => Some (EmptyString, c)
      | Some (r, l) => Some (String c r, l)
      end
  end.

(** The regular expression [/<TAG\s+([^>]+)\/>/] tried at the start of [s],
    [tag] being ["<TAG"]: the group and the length of the match.  The text
    up to the first [>] has to end with a slash; before the slash, the white
    space takes all it can and leaves at least one character to the
    group. *)
Definition tagAt (tag s : string) : option (string * nat) :=
  match dropPrefix tag s with
  | None => None
  | Some x =>
      let (u, v) := span notGt x in
      match v, unsnoc u with
      | String _ _, Some (u', l) =>
          if Ascii.eqb l "/" then
            let len := String.length tag + String.length u + 1 in
            let (ws, rest) := span isSpace u' in
            match ws, rest with
            | EmptyString, _ => None
            | String _ _, String _ _ => Some (rest, len)
            | String _ ws', EmptyString =>
                match unsnoc ws' with
                | Some (_, w) => Some (String w EmptyString, len)
                | None => None
                end
            end
          else None
      | _, _ => None
      end
  end.

(** The groups of the successive matches of the global expression, as the
    loop over [exec] meets them; [skip] counts the characters of the current
    match still to be passed. *)
Fixpoint scanTags (tag s : string) (skip : nat) : list string :=
  match s with
  | EmptyString => []
  | String _ s' =>
      match skip with
      | S k => scanTags tag s' k
      | O =>
          match tagAt tag s with
          | Some (attrs, n) => attrs :: scanTags tag s' (n - 1)
          | None => scanTags tag s' 0
          end
      end
  end.

Fixpoint somesOf {A} (l : list (option A)) : list A :=
  match l with
  | [] => []
  | Some x :: l' => x :: somesOf l'
  | None :: l' => somesOf l'
  end.

Definition linkOfCard (attrs : string) : option Link :=
  match attr "href" attrs, attr "title" attrs with
  | Some href, Some title =>
      if startsWith href "http"
      then Some {| l_title := trim title;
                   l_url := trim href;
                   l_description := orStr (option_map trim (attr "description" attrs)) "" |}
      else None
  | _, _ => None
  end.

Definition parseLinkCard (content : string) : list Link :=
  somesOf (map linkOfCard (scanTags "<LinkCard" content 0)).

Definition cardOfCard (attrs : string) : option Link :=
  match attr "title" attrs, attr "href" attrs with
  | Some title, Some href =>
      Some {| l_title := trim title; l_url := trim href; l_description := "" |}
  | _, _ => None
  end.

Definition parseCardComponent (content : string) : list Link :=
  somesOf (map cardOfCard (scanTags "<Card" content 0)).

End Parsers.

(** ** More sample inputs *)

Module Samples.

Definition sampleReadme : string :=
  "# Awesome Starlight" ++ Readme.nl ++ Readme.startMarker ++ Readme.nl
  ++ "- an old list" ++ Readme.nl ++ Readme.endMarker ++ Readme.nl ++ "## License".

Definition sampleData : OfficialData :=
  mkData [Fixtures.entryA] [] [] [] [] [Fixtures.urlOnly].

Definition samplePage : string :=
  "<CardGrid> <LinkCard title='Starlight Blog' href='https://github.com/HiDeoo/starlight-blog' description='Add a blog' /> <Card title='Docs' href=' /docs ' />".

Definition plainPage : string := "# Nothing to see <Link href='https://x.dev' />".

Definition cardPage : string :=
  "<CardGrid> <Card title='Docs' href='https://x.dev/docs' /> </CardGrid>".

End Samples.

(** ** The updater *)

Section Updater.

(** The environment of a run: the token read from the process environment,
    the network, the decoders of the bodies received (JSON and YAML), the
    parsers of the official pages, the collation of [localeCompare] and the
    step that rewrites the README. *)
Variable GITHUB_TOKEN : option string.

(** [net sent r] is the outcome of the request [r] issued after the requests
    [sent]: a response, or [None] when [fetch] rejects (network failure,
    abort on timeout). *)
Variable net : list Request -> Request -> option Response.

(** [repoFork b]: the truthiness of [repoData.fork] in the repository
    metadata [b]; [None] when [response.json()] or the property access
    throws. *)
Variable repoFork : string -> option bool.

Variable parseLinkCard : string -> list Link.
Variable parseCardComponent : string -> list Link.
Variable parseThemeGrid : string -> list Link.
Variable parseYouTubeGrid : string -> list Link.

(** [listing b]: the files of a directory listing; [yamlLoad b]: a showcase
    document; [searchObjects b]: the packages of a registry search;
    [chatContent b]: [data.choices[0].message.content]; [jsonParse t]: the
    labels of a categorisation object.  Each is [None] where the JavaScript
    throws. *)
Variable listing : string -> option (list ListedFile).
Variable yamlLoad : string -> option SiteDoc.
Variable searchObjects : string -> option (list SearchHit).
Variable chatContent : string -> option string.
Variable jsonParse : string -> option (nat -> Label).

Variable localeCompare : string -> string -> Z.
Variable updateReadme : OfficialData -> M unit.

Definition fetch (r : Request) : M Response :=
  fun st =>
    let st' := {| officialData := officialData st;
                  processedUrls := processedUrls st;
                  requests := requests st ++ [r] |} in
    match net (requests st) r with
    | Some resp => (Ok resp, st')
    | None => (Throw, st')
    end.

(** The headers of the calls to the GitHub API. *)
Definition apiToken : option string :=
  if truthy GITHUB_TOKEN then GITHUB_TOKEN else None.

(** The first request sent to each origin. *)
Definition originRequest (o : Origin) : Request :=
  match o with
  | OfficialPlugins => mkRequest GET SOURCES_plugins None ""
  | OfficialThemes => mkRequest GET SOURCES_themes None ""
  | OfficialCommunity => mkRequest GET SOURCES_community None ""
  | OfficialShowcases => mkRequest GET SOURCES_showcases None ""
  | AstroShowcase => mkRequest GET ASTRO_SHOWCASE_API apiToken ""
  | NpmSearch1 => mkRequest GET NPM_SEARCH_1 None ""
  | NpmSearch2 => mkRequest GET NPM_SEARCH_2 None ""
  end.

Definition fetchText (u : string) : M string :=
  let* response := fetch (mkRequest GET u None "") in
  if negb (ok response) then throw else ret (body response).

(** *** Link validation *)

Definition checkGeneralUrl (u : string) : M bool :=
  tryCatch
    (let* response := fetch (mkRequest HEAD u None "") in
     let* response :=
       (if (status response =? 405)%Z || (status response =? 403)%Z
        then fetch (mkRequest GET u None "")
        else ret response) in
     ret (ok response))
    (ret false).

Definition checkGitHubRepo (u : string) : M bool :=
  tryCatch
    (match githubMatch u with
     | None => checkGeneralUrl u
     | Some (owner, rp) =>
         let apiUrl := "https://api.github.com/repos/" ++ owner ++ "/" ++ rp in
         let* response := fetch (mkRequest GET apiUrl apiToken "") in
         if (status response =? 200)%Z then
           match repoFork (body response) with
           | None => throw
           | Some fork => if fork then ret false else ret true
           end
         else if (status response =? 404)%Z then ret false
         else if (status response =? 403)%Z then ret true
         else ret false
     end)
    (ret false).

Definition validateUrl (u : option string) : M bool :=
  match u with
  | None => ret false
  | Some s =>
      if isEmpty s then ret false
      else
        let s := trim s in
        let* st := get in
        if bool_decide (s ∈ processedUrls st) then ret true
        else
          let* _ := addProcessed s in
          if includes s "github.com" then checkGitHubRepo s
          else checkGeneralUrl s
  end.

(** *** AI categorisation request *)

Definition callGitHubModels (prompt : string) : M string :=
  if negb (truthy GITHUB_TOKEN) then throw
  else
    let* response := fetch (mkRequest POST MODELS_API GITHUB_TOKEN prompt) in
    if negb (ok response) then throw
    else
      match chatContent (body response) with
      | Some content => ret content
      | None => throw
      end.

(** *** Data fetching *)

Definition fetchOfficialSources : M unit :=
  let* r1 := settle (let* c := fetchText SOURCES_plugins in ret (parseLinkCard c)) in
  let* r2 := settle (let* c := fetchText SOURCES_themes in ret (parseThemeGrid c)) in
  let* r3 := settle (let* c := fetchText SOURCES_community in
                     ret (parseLinkCard c, parseYouTubeGrid c)) in
  let* r4 := settle (let* c := fetchText SOURCES_showcases in ret (parseCardComponent c)) in
  let* pl := await r1 in
  let* th := await r2 in
  let* communityData := await r3 in
  let* sh := await r4 in
  setOfficialData
    {| plugins := map ofLink pl;
       themes := map ofLink th;
       tools := [];
       videos := map ofLink (snd communityData);
       articles := map ofLink (fst communityData);
       showcases := map ofLink sh |}.

(** The body of the callback of [ymlFiles.map] once its download has
    settled. *)
Definition showcaseSite (contentRes : result Response) : M (option Item) :=
  tryCatch
    (let* res := await contentRes in
     match yamlLoad (body res) with
     | None => throw
     | Some data =>
         if y_starlight data then
           let site := entry (y_title data) (y_url data) "" in
           let* isValid := validateUrl (url site) in
           if negb isValid then ret None else ret (Some site)
         else ret None
     end)
    (ret None).

Fixpoint somes {A} (l : list (option A)) : list A :=
  match l with
  | [] => []
  | Some x :: l' => x :: somes l'
  | None :: l' => somes l'
  end.

Definition fetchAstroShowcase : M (list Item) :=
  tryCatch
    (let* response := fetch (mkRequest GET ASTRO_SHOWCASE_API apiToken "") in
     if negb (ok response) then ret []
     else
       match listing (body response) with
       | None => throw
       | Some files =>
           let ymlFiles := List.filter (fun f => endsWith (f_name f) ".yml") files in
           let* downloads :=
             mapM (fun f => settle (fetch (mkRequest GET (f_download_url f) None ""))) ymlFiles in
           let* results := mapM showcaseSite downloads in
           ret (somes results)
       end)
    (ret []).

Definition searchNPM (searchUrl : string) : M (list SearchHit) :=
  let* response := fetch (mkRequest GET searchUrl None "") in
  if negb (ok response) then throw
  else
    match searchObjects (body response) with
    | Some objects => ret objects
    | None => throw
    end.

(** [allPackages.set(name, p)] on a [Map] kept in insertion order. *)
Fixpoint mapSet (k : string) (p : Package) (m : list (string * Package)) :=
  match m with
  | [] => [(k, p)]
  | (k', p') :: m' =>
      if String.eqb k' k then (k, p) :: m' else (k', p') :: mapSet k p m'
  end.

Definition ofHit (h : SearchHit) : Package :=
  {| pkg_name := h_name h;
     pkg_description := orStr (h_description h) "";
     pkg_homepage := orElse (h_homepage h) (h_repository h);
     pkg_keywords := match h_keywords h with Some ks => ks | None => [] end |}.

Definition collectHits (hits : list SearchHit) (m : list (string * Package)) :=
  fold_left
    (fun acc h =>
       if includes (h_name h) "starlight" || startsWith (h_name h) "@astrojs/starlight"
       then mapSet (h_name h) (ofHit h) acc
       else acc)
    hits m.

Definition fetchSupplementaryNPM : M (list Package) :=
  let* results1 := searchNPM NPM_SEARCH_1 in
  let allPackages := collectHits results1 [] in
  let* results2 := searchNPM NPM_SEARCH_2 in
  let allPackages := collectHits results2 allPackages in
  ret (map snd allPackages).

(** *** Filtering and categorisation *)

Definition allOfficialItems (d : OfficialData) : list Item :=
  plugins d ++ themes d ++ tools d ++ videos d ++ articles d ++ showcases d.

(** [{ name: pkg.name, url: pkg.homepage }] *)
Definition pkgItem (pkg : Package) : Item :=
  {| title := None; name := Some (pkg_name pkg); url := pkg_homepage pkg;
     homepage := None; repo := None; description := None |}.

(** The relevance rules of step 2 of the filter. *)
Definition isRelevant (pkg : Package) : bool :=
  let text :=
    toLowerCase (pkg_name pkg ++ " " ++ pkg_description pkg ++ " "
                 ++ String.concat " " (pkg_keywords pkg)) in
  let isOfficialScope := startsWith (pkg_name pkg) "@astrojs/" in
  let mentionsAstro := includes text "astro" in
  let mentionsStarlight := includes text "starlight" in
  if negb isOfficialScope && negb mentionsAstro then false
  else if negb mentionsStarlight && negb (includes (pkg_name pkg) "starlight") then false
  else true.

Fixpoint filterLoop (official : list Item) (packages : list Package) : M (list Package) :=
  match packages with
  | [] => ret []
  | pkg :: rest =>
      if existsb (fun off => isDuplicate (pkgItem pkg) off) official
      then filterLoop official rest
      else if negb (isRelevant pkg) then filterLoop official rest
      else
        let* isValidLink := validateUrl (pkg_homepage pkg) in
        if negb isValidLink then filterLoop official rest
        else
          let* kept := filterLoop official rest in
          ret (pkg :: kept)
  end.

Definition filterSupplementaryPackages (packages : list Package) : M (list Package) :=
  let* st := get in
  filterLoop (allOfficialItems (officialData st)) packages.

(** [{ title: pkg.name, url: pkg.homepage, description: pkg.description }] *)
Definition pkgEntry (pkg : Package) : Item :=
  entry (Some (pkg_name pkg)) (pkg_homepage pkg) (pkg_description pkg).

Definition emptyCategorized : Categorized :=
  {| c_plugins := []; c_themes := []; c_tools := [] |}.

Definition pushPlugin (c : Categorized) (i : Item) : Categorized :=
  {| c_plugins := c_plugins c ++ [i]; c_themes := c_themes c; c_tools := c_tools c |}.
Definition pushTheme (c : Categorized) (i : Item) : Categorized :=
  {| c_plugins := c_plugins c; c_themes := c_themes c ++ [i]; c_tools := c_tools c |}.
Definition pushTool (c : Categorized) (i : Item) : Categorized :=
  {| c_plugins := c_plugins c; c_themes := c_themes c; c_tools := c_tools c ++ [i] |}.

Definition fallbackStep (categorized : Categorized) (pkg : Package) : Categorized :=
  let text := toLowerCase (pkg_name pkg ++ " " ++ pkg_description pkg) in
  let item := pkgEntry pkg in
  if includes text "theme" || includes (pkg_name pkg) "theme"
  then pushTheme categorized item
  else if includes text "vscode" || includes text "cli" || includes text "generator"
  then pushTool categorized item
  else pushPlugin categorized item.

Definition fallbackCategorization (packages : list Package) : Categorized :=
  fold_left fallbackStep packages emptyCategorized.

(** The template text of a possibly absent value. *)
Definition show (v : option string) : string :=
  match v with
  | Some s => s
  | None => "undefined"
  end.

Definition newline : string := String (ascii_of_nat 10) EmptyString.

(** The list of packages that the prompt carries; the fixed instructions
    around it are the same in every request and are left out of
    [payload]. *)
Definition itemsList (packages : list Package) : string :=
  String.concat newline
    (imap (fun i pkg =>
             pretty i ++ ". " ++ pkg_name pkg ++ " | " ++ show (pkg_homepage pkg)
             ++ " | " ++ pkg_description pkg)
          packages).

(** [responseText.match(/\{[\s\S]*?\}/)]: from the first opening brace to
    the first closing brace after it. *)
Fixpoint untilClose (s : string) : option string :=
  match s with
  | EmptyString => None
  | String c s' =>
      if Ascii.eqb c "}" then Some (String c EmptyString)
      else option_map (String c) (untilClose s')
  end.

Fixpoint firstObject (s : string) : option string :=
  match s with
  | EmptyString => None
  | String c s' =>
      if Ascii.eqb c "{" then option_map (String c) (untilClose s')
      else firstObject s'
  end.

(** [category.includes(word)] for [category = categorization[i] ||
    categorization[String(i)] || "plugin"]: [String.prototype.includes] looks
    for a substring, [Array.prototype.includes] for an element equal to the
    word; [None] when the value has no [includes] and the call throws. *)
Definition labelIncludes (label : Label) (word : string) : option bool :=
  match label with
  | LAbsent => Some (includes "plugin" word)
  | LString s => Some (includes (if isEmpty s then "plugin" else s) word)
  | LArray elems =>
      Some (existsb (fun e => match e with
                              | Some s => String.eqb s word
                              | None => false
                              end) elems)
  | LOther => None
  end.

(** The [forEach] over the packages with the labels of the service; [None]
    when [category.includes] throws. *)
Fixpoint labelLoop (labels : nat -> Label) (i : nat) (packages : list Package)
    (categorized : Categorized) : option Categorized :=
  match packages with
  | [] => Some categorized
  | pkg :: rest =>
      let category := labels i in
      let item := pkgEntry pkg in
      match labelIncludes category "theme" with
      | None => None
      | Some true => labelLoop labels (S i) rest (pushTheme categorized item)
      | Some false =>
          match labelIncludes category "tool" with
          | None => None
          | Some true => labelLoop labels (S i) rest (pushTool categorized item)
          | Some false => labelLoop labels (S i) rest (pushPlugin categorized item)
          end
      end
  end.

Definition categorizeSupplementary (packages : list Package) : M Categorized :=
  match packages with
  | [] => ret emptyCategorized
  | _ :: _ =>
      tryCatch
        (let* responseText := callGitHubModels (itemsList packages) in
         match firstObject responseText with
         | None => ret (fallbackCategorization packages)
         | Some jsonMatch =>
             match jsonParse jsonMatch with
             | None => throw
             | Some categorization =>
                 match labelLoop categorization 0 packages emptyCategorized with
                 | None => throw
                 | Some categorized => ret categorized
                 end
             end
         end)
        (ret (fallbackCategorization packages))
  end.

(** *** Execution *)

Definition sortByPackageName (nm : option string) : string :=
  let nm := toLowerCase (trim (orStr nm "")) in
  if startsWith nm "@" then secondPart nm else nm.

(** [Array.prototype.sort] is stable; an item goes in front of the first
    item it does not compare greater than. *)
Fixpoint insertSorted (cmp : Item -> Item -> Z) (x : Item) (l : list Item) : list Item :=
  match l with
  | [] => [x]
  | y :: l' =>
      if (cmp x y <=? 0)%Z then x :: y :: l' else y :: insertSorted cmp x l'
  end.

Definition sortItems (l : list Item) : list Item :=
  fold_right
    (insertSorted (fun a b => localeCompare (sortByPackageName (title a))
                                            (sortByPackageName (title b))))
    [] l.

Definition mergeShowcases (astroShowcases existing : list Item) : list Item :=
  fold_left
    (fun acc site =>
       if negb (existsb (fun ex => isDuplicate site ex) acc) then (acc ++ [site])%list else acc)
    astroShowcases existing.

Definition matchesTheme (theme existing : Item) : bool :=
  truthyV (orV (orV (Bool (isDuplicate theme existing)) (isSameTitle theme existing))
               (isLikelySameTheme theme existing)).

Definition collectAllData : M unit :=
  let* _ := fetchOfficialSources in
  let* astroShowcases := fetchAstroShowcase in
  let* st := get in
  let d := officialData st in
  let* _ := setOfficialData
    {| plugins := plugins d; themes := themes d; tools := tools d;
       videos := videos d; articles := articles d;
       showcases := mergeShowcases astroShowcases (showcases d) |} in
  let* npmPackages := fetchSupplementaryNPM in
  let* filtered := filterSupplementaryPackages npmPackages in
  let* categorized := categorizeSupplementary filtered in
  let* st := get in
  let d := officialData st in
  let newThemes :=
    List.filter (fun theme => negb (existsb (fun existing => matchesTheme theme existing) (themes d)))
           (c_themes categorized) in
  setOfficialData
    {| plugins := sortItems (plugins d ++ c_plugins categorized);
       themes := sortItems (themes d ++ newThemes);
       tools := sortItems (tools d ++ c_tools categorized);
       videos := sortItems (videos d);
       articles := sortItems (articles d);
       showcases := sortItems (showcases d) |}.

Definition run (st : State) : ExitStatus * State :=
  match (let* _ := collectAllData in
         let* st' := get in
         updateReadme (officialData st')) st with
  | (Ok _, st') => (Completed, st')
  | (Throw, st') => (Exit1, st')
  end.

(** *** The fallback heuristic, package by package *)

(** The text the fallback looks at, and the category its three branches
    give one package. *)
Definition packageText (pkg : Package) : string :=
  toLowerCase (pkg_name pkg ++ " " ++ pkg_description pkg).

Definition heuristicCategory (pkg : Package) : Category :=
  if includes (packageText pkg) "theme" || includes (pkg_name pkg) "theme" then Themes
  else if includes (packageText pkg) "vscode" || includes (packageText pkg) "cli"
          || includes (packageText pkg) "generator" then Tools
  else Plugins.

Definition categorizedAs (r : Categorized) (c : Category) : list Item :=
  match c with
  | Plugins => c_plugins r
  | Themes => c_themes r
  | Tools => c_tools r
  | _ => []
  end.

Definition Category_eqb (c1 c2 : Category) : bool :=
  match c1, c2 with
  | Plugins, Plugins | Themes, Themes | Tools, Tools
  | Videos, Videos | Articles, Articles | Showcases, Showcases => true
  | _, _ => false
  end.

(** The entries of the packages of one category, in order. *)
Definition entriesOf (c : Category) (packages : list Package) : list Item :=
  map pkgEntry (List.filter (fun p => Category_eqb (heuristicCategory p) c) packages).

(** Every categorised item is the entry of one of [packages]. *)
Definition fromPackages (packages : list Package) (c : Categorized) : Prop :=
  forall x, In x (c_plugins c) \/ In x (c_themes c) \/ In x (c_tools c) ->
            exists p, In p packages /\ x = pkgEntry p.

(** All the items of a categorisation. *)
Definition allCategorized (c : Categorized) : list Item :=
  c_plugins c ++ c_themes c ++ c_tools c.

(** ** Properties of the string primitives *)

Lemma lowerChar_idem (c : ascii) : lowerChar (lowerChar c) = lowerChar c.
Proof. destruct c as [[] [] [] [] [] [] [] []]; reflexivity. Qed.

Lemma toLowerCase_idem (s : string) : toLowerCase (toLowerCase s) = toLowerCase s.
Proof.
  induction s as [|c s IH]; simpl; [reflexivity|].
  now rewrite lowerChar_idem, IH.
Qed.

Lemma lowerChar_slash (c : ascii) :
  Ascii.eqb (lowerChar c) "/" = Ascii.eqb c "/".
Proof. destruct c as [[] [] [] [] [] [] [] []]; reflexivity. Qed.

Lemma isEmpty_toLowerCase (s : string) : isEmpty (toLowerCase s) = isEmpty s.
Proof. destruct s; reflexivity. Qed.

Lemma isEmpty_true (s : string) : isEmpty s = true -> s = "".
Proof. destruct s; [reflexivity | discriminate]. Qed.

Lemma strip_lower (s : string) :
  stripTrailingSlash (toLowerCase s) = toLowerCase (stripTrailingSlash s).
Proof.
  induction s as [|c s IH]; simpl; [reflexivity|].
  rewrite isEmpty_toLowerCase, lowerChar_slash.
  destruct (isEmpty s) eqn:E.
  - apply isEmpty_true in E; subst s. destruct (Ascii.eqb c "/"); reflexivity.
  - simpl. now rewrite IH.
Qed.

Lemma endsWith_cons (c : ascii) (s suf : string) :
  endsWith (String c s) suf = String.eqb (String c s) suf || endsWith s suf.
Proof. reflexivity. Qed.

Lemma strip_cons2 (c d : ascii) (s : string) :
  stripTrailingSlash (String c (String d s)) = String c (stripTrailingSlash (String d s)).
Proof. reflexivity. Qed.

Lemma strip_empty (s : string) :
  stripTrailingSlash s = "" -> s = "" \/ s = "/".
Proof.
  destruct s as [|c [|d s]]; [now left| |].
  - simpl. destruct (Ascii.eqb c "/") eqn:E; [|discriminate].
    apply Ascii.eqb_eq in E. subst. now right.
  - rewrite strip_cons2. discriminate.
Qed.

Lemma strip_strip (s : string) :
  endsWith s "//" = false ->
  stripTrailingSlash (stripTrailingSlash s) = stripTrailingSlash s.
Proof.
  induction s as [|c s IH]; [reflexivity|].
  intros H. rewrite endsWith_cons in H. apply orb_false_iff in H as [H1 H2].
  destruct s as [|d s].
  - simpl. destruct (Ascii.eqb c "/") eqn:E; simpl; rewrite ?E; reflexivity.
  - specialize (IH H2). rewrite strip_cons2.
    destruct (stripTrailingSlash (String d s)) as [|e t] eqn:Es.
    + apply strip_empty in Es as [Es|Es]; [discriminate|].
      injection Es as -> ->. simpl.
      destruct (Ascii.eqb c "/") eqn:Ec; [|reflexivity].
      apply Ascii.eqb_eq in Ec. subst. discriminate H1.
    + rewrite strip_cons2. now rewrite IH.
Qed.

Lemma normalizeUrl_empty (u : string) :
  u <> "" -> u <> "/" -> isEmpty (normalizeUrl u) = false.
Proof.
  unfold normalizeUrl. intros H1 H2.
  destruct u as [|c u]; [congruence|]. simpl.
  rewrite isEmpty_toLowerCase, lowerChar_slash.
  destruct u as [|d u]; simpl; [|reflexivity].
  destruct (Ascii.eqb c "/") eqn:E; [|reflexivity].
  apply Ascii.eqb_eq in E. subst. congruence.
Qed.

Lemma span_app_stop (f : ascii -> bool) (a : string) (c : ascii) (b : string) :
  (forall x, In x (list_ascii_of_string a) -> f x = true) ->
  f c = false ->
  span f (a ++ String c b) = (a, String c b).
Proof.
  induction a as [|x a IH]; simpl; intros Ha Hc.
  - now rewrite Hc.
  - rewrite (Ha x) by now left.
    rewrite IH; [reflexivity| |assumption].
    intros y Hy. apply Ha. now right.
Qed.

Lemma append_cons (c : ascii) (a b : string) :
  String c a ++ b = String c (a ++ b).
Proof. reflexivity. Qed.

Lemma append_nil (b : string) : "" ++ b = b.
Proof. reflexivity. Qed.

Lemma span_all (f : ascii -> bool) (a : string) :
  (forall x, In x (list_ascii_of_string a) -> f x = true) ->
  span f a = (a, "").
Proof.
  induction a as [|x a IH]; simpl; intros Ha; [reflexivity|].
  rewrite (Ha x) by now left.
  rewrite IH; [reflexivity|]. intros y Hy. apply Ha. now right.
Qed.

(** ** Properties of the matcher *)

Lemma githubMatch_skip (c : ascii) (s : string) :
  githubAt (String c s) = None -> githubMatch (String c s) = githubMatch s.
Proof. intros H. cbn [githubMatch]. now rewrite H. Qed.

Lemma githubMatch_here (s : string) (r : string * string) :
  githubAt s = Some r -> githubMatch s = Some r.
Proof. intros H. destruct s; cbn [githubMatch]; now rewrite H. Qed.

(** The owner and the repository read from
    [https://github.com/<owner>/<repo>]. *)
Lemma githubMatch_https (owner rp : string) :
  owner <> "" ->
  (forall x, In x (list_ascii_of_string owner) -> notSlash x = true) ->
  rp <> "" ->
  (forall x, In x (list_ascii_of_string rp) -> repoChar x = true) ->
  githubMatch ("https://github.com/" ++ owner ++ "/" ++ rp) = Some (owner, rp).
Proof.
  intros Hne Hown Hrp Hrpc.
  change ("https://github.com/" ++ owner ++ "/" ++ rp)
    with ("https://" ++ "github.com/" ++ owner ++ String "/" rp).
  rewrite !append_cons, !append_nil.
  do 8 (rewrite githubMatch_skip by reflexivity).
  apply githubMatch_here.
  unfold githubAt. cbn [dropPrefix Ascii.eqb Bool.eqb].
  rewrite span_app_stop by (assumption || reflexivity).
  destruct owner as [|o owner']; [congruence|]. cbn [isEmpty].
  rewrite span_all by assumption.
  destruct rp; [congruence|]. reflexivity.
Qed.

Lemma endsWith_lower (s : string) :
  endsWith (toLowerCase s) "//" = endsWith s "//".
Proof.
  induction s as [|c s IH]; [reflexivity|].
  cbn [toLowerCase]. rewrite !endsWith_cons, IH. f_equal.
  destruct s as [|d [|e s]]; cbn [toLowerCase String.eqb];
    rewrite ?lowerChar_slash; reflexivity.
Qed.

(** C6 (as amended): the normalisation that [isDuplicate] applies to an
    address (lower-casing, then removal of one trailing slash; it does not
    trim) gives the same result when applied twice, for every string that
    does not end in two slashes. *)
Theorem normalizeUrl_idempotent (u : string) :
  endsWith u "//" = false ->
  normalizeUrl (normalizeUrl u) = normalizeUrl u.
Proof.
  intros H. unfold normalizeUrl.
  rewrite <- strip_lower, toLowerCase_idem.
  apply strip_strip. now rewrite endsWith_lower.
Qed.

Lemma orStr_truthy (v : option string) (d : string) :
  truthy v = true -> Some (orStr v d) = v.
Proof. destruct v as [[|c s]|]; simpl; intros H; congruence. Qed.

Lemma orStr_falsy (v : option string) (d : string) :
  truthy v = false -> orStr v d = d.
Proof. destruct v as [[|c s]|]; simpl; intros H; congruence. Qed.

Lemma getRepo_falsy (v : option string) : truthy v = false -> getRepo v = None.
Proof. destruct v as [[|c s]|]; simpl; intros H; congruence. Qed.

(** The address the first argument of [isDuplicate] is compared by is its
    [url] whenever that is non-empty or there is no [homepage] to fall back
    on. *)
Lemma newItem_address (a : Item) :
  truthy (url a) || negb (truthy (homepage a)) = true ->
  orStr (orElse (url a) (homepage a)) "" = orStr (url a) "" /\
  getRepo (orElse (url a) (homepage a)) = getRepo (url a).
Proof.
  unfold orElse. destruct (truthy (url a)) eqn:E; [now split|].
  simpl. intros H. apply negb_true_iff in H.
  rewrite (orStr_falsy _ _ H), (orStr_falsy _ _ E).
  now rewrite (getRepo_falsy _ H), (getRepo_falsy _ E).
Qed.

(** C7 (as amended): an item is a duplicate of itself as soon as its [url]
    is a string other than the empty string and the single slash. *)
Theorem isDuplicate_refl (a : Item) (u : string) :
  url a = Some u -> u <> "" -> u <> "/" -> isDuplicate a a = true.
Proof.
  intros Hu H1 H2. unfold isDuplicate, orElse.
  assert (Ht : truthy (url a) = true).
  { rewrite Hu. destruct u; [congruence | reflexivity]. }
  rewrite Ht, Hu.
  assert (Ho : orStr (Some u) "" = u) by (destruct u; [congruence | reflexivity]).
  rewrite Ho, (normalizeUrl_empty u H1 H2), String.eqb_refl. reflexivity.
Qed.

(** C8 (as amended): [isDuplicate] gives the same answer in both orders for
    two items each of which has a non-empty [url] or no [homepage] to fall
    back on. *)
Theorem isDuplicate_sym (a b : Item) :
  truthy (url a) || negb (truthy (homepage a)) = true ->
  truthy (url b) || negb (truthy (homepage b)) = true ->
  isDuplicate a b = isDuplicate b a.
Proof.
  intros Ha Hb. unfold isDuplicate.
  destruct (newItem_address a Ha) as [-> ->].
  destruct (newItem_address b Hb) as [-> ->].
  rewrite (String.eqb_sym (normalizeUrl (orStr (url b) ""))).
  rewrite (andb_comm (negb (isEmpty (normalizeUrl (orStr (url a) ""))))).
  destruct (_ && _ && _); [reflexivity|].
  destruct (getRepo (url a)), (getRepo (url b)); try reflexivity.
  apply String.eqb_sym.
Qed.

Lemma keysEqual_same (x : string) : x <> "" -> keysEqual x x = Bool true.
Proof.
  intros H. unfold keysEqual, andV.
  destruct x; [congruence|]. cbn [truthyV isEmpty negb].
  now rewrite String.eqb_refl.
Qed.

Lemma orV_true_r (v : value) : orV v (Bool true) = Bool true \/ truthyV v = true.
Proof. unfold orV. destruct (truthyV v); [now right | now left]. Qed.

Lemma keysEqual_shape (x y : string) :
  keysEqual x y = Bool true \/ truthyV (keysEqual x y) = false.
Proof.
  unfold keysEqual, andV. destruct x; [now right|]. cbn [truthyV isEmpty negb].
  destruct y; [now right|]. cbn [truthyV isEmpty negb].
  destruct (_ || _ || _); [now left | now right].
Qed.

(** C9: a theme titled "Starlight Theme Galaxy" and a theme whose address is
    the GitHub repository [<owner>/starlight-galaxy-theme] are the same
    theme for [isLikelySameTheme]: the title and the repository name both
    have the key "galaxy". *)
Theorem isLikelySameTheme_galaxy (a b : Item) (owner : string) :
  title a = Some "Starlight Theme Galaxy" ->
  owner <> "" ->
  (forall x, In x (list_ascii_of_string owner) -> notSlash x = true) ->
  url b = Some ("https://github.com/" ++ owner ++ "/starlight-galaxy-theme") ->
  normalizeThemeKey (title a) = "galaxy" /\
  normalizeThemeKey (Some (extractRepoSlug (url b))) = "galaxy" /\
  isLikelySameTheme a b = Bool true.
Proof.
  intros Ha Hne Hown Hb.
  assert (Hslug : extractRepoSlug (url b) = "starlight-galaxy-theme").
  { rewrite Hb. unfold extractRepoSlug, getRepo.
    change (owner ++ "/starlight-galaxy-theme")
      with (owner ++ "/" ++ "starlight-galaxy-theme").
    rewrite githubMatch_https; try assumption; try discriminate.
    - reflexivity.
    - intros x Hx. cbn in Hx.
      repeat (destruct Hx as [<-|Hx]; [reflexivity|]). destruct Hx. }
  assert (Hka : normalizeThemeKey (title a) = "galaxy") by (rewrite Ha; reflexivity).
  assert (Hkb : normalizeThemeKey (Some (extractRepoSlug (url b))) = "galaxy")
    by (rewrite Hslug; reflexivity).
  split; [assumption|]. split; [assumption|].
  unfold isLikelySameTheme.
  assert (Hub : orElse (orElse (url b) (homepage b)) (repo b) = url b).
  { rewrite Hb. reflexivity. }
  rewrite Hub, Hka, Hkb.
  rewrite (keysEqual_same "galaxy") by discriminate.
  destruct (keysEqual_shape "galaxy" (normalizeThemeKey (title b))) as [-> | Hf];
    [reflexivity|].
  unfold orV at 3. rewrite Hf. reflexivity.
Qed.

(** ** Properties of the fallback categorisation *)

Lemma Category_eqb_eq (c1 c2 : Category) : Category_eqb c1 c2 = true <-> c1 = c2.
Proof. destruct c1, c2; simpl; split; congruence. Qed.

Lemma fallbackStep_category (acc : Categorized) (p : Package) :
  fallbackStep acc p =
  match heuristicCategory p with
  | Themes => pushTheme acc (pkgEntry p)
  | Tools => pushTool acc (pkgEntry p)
  | _ => pushPlugin acc (pkgEntry p)
  end.
Proof.
  unfold fallbackStep, heuristicCategory, packageText.
  destruct (_ || _); [reflexivity|]. destruct (_ || _); reflexivity.
Qed.

Lemma heuristicCategory_cases (p : Package) :
  heuristicCategory p = Themes \/ heuristicCategory p = Tools
  \/ heuristicCategory p = Plugins.
Proof.
  unfold heuristicCategory. destruct (_ || _); [now left|].
  destruct (_ || _); [right; now left | right; now right].
Qed.

Lemma fallback_fold (packages : list Package) (acc : Categorized) :
  fold_left fallbackStep packages acc =
  {| c_plugins := c_plugins acc ++ entriesOf Plugins packages;
     c_themes := c_themes acc ++ entriesOf Themes packages;
     c_tools := c_tools acc ++ entriesOf Tools packages |}.
Proof.
  revert acc. induction packages as [|p l IH]; intros acc.
  - cbn. rewrite !app_nil_r. now destruct acc.
  - cbn [fold_left]. rewrite IH, fallbackStep_category.
    unfold entriesOf. cbn [List.filter].
    destruct (heuristicCategory_cases p) as [-> | [-> | ->]];
      cbn; now rewrite <- ?app_assoc.
Qed.

Lemma fallbackCategorization_lists (packages : list Package) (c : Category) :
  categorizedAs (fallbackCategorization packages) c =
  match c with
  | Plugins | Themes | Tools => entriesOf c packages
  | _ => []
  end.
Proof.
  unfold fallbackCategorization. rewrite fallback_fold. now destruct c.
Qed.

Lemma pkgEntry_category (p q : Package) :
  pkgEntry p = pkgEntry q -> heuristicCategory p = heuristicCategory q.
Proof.
  unfold pkgEntry, entry. intros H. injection H as Hn _ Hd.
  unfold heuristicCategory, packageText. now rewrite Hn, Hd.
Qed.

(** Every package lands in the list of its category and in no other. *)
Lemma fallbackCategorization_total (packages : list Package) (pkg : Package) (c : Category) :
  In pkg packages ->
  In (pkgEntry pkg) (categorizedAs (fallbackCategorization packages) c)
  <-> c = heuristicCategory pkg.
Proof.
  intros Hin. rewrite fallbackCategorization_lists. split.
  - intros H.
    assert (H' : In (pkgEntry pkg) (entriesOf c packages))
      by (destruct c; solve [assumption | destruct H]).
    unfold entriesOf in H'. apply in_map_iff in H' as (q & Hq & Hq').
    apply filter_In in Hq' as [_ Hc]. apply Category_eqb_eq in Hc.
    now rewrite <- (pkgEntry_category _ _ Hq).
  - intros ->.
    assert (In (pkgEntry pkg) (entriesOf (heuristicCategory pkg) packages)).
    { unfold entriesOf. apply in_map. apply filter_In. split; [assumption|].
      now apply Category_eqb_eq. }
    destruct (heuristicCategory_cases pkg) as [E | [E | E]]; rewrite E in *;
      assumption.
Qed.

Lemma prefix_lower (p s r : string) :
  String.prefix p s = true -> toLowerCase p = p ->
  String.prefix p (toLowerCase (s ++ r)) = true.
Proof.
  revert s. induction p as [|a p IH]; intros s Hp Hl.
  - destruct (toLowerCase (s ++ r)); reflexivity.
  - destruct s as [|b s]; [discriminate|]. cbn [String.prefix] in Hp.
    destruct (ascii_dec a b) as [<-|]; [|discriminate].
    cbn [toLowerCase] in Hl. injection Hl as Ha Hl.
    rewrite append_cons. cbn [toLowerCase String.prefix]. rewrite Ha.
    destruct (ascii_dec a a); [|congruence]. now apply IH.
Qed.

Lemma includes_lower_app (n p r : string) :
  includes n p = true -> toLowerCase p = p ->
  includes (toLowerCase (n ++ r)) p = true.
Proof.
  intros H Hl. induction n as [|c n IH].
  - cbn [includes] in H. rewrite orb_false_r in H.
    pose proof (prefix_lower p "" r H Hl) as Hp.
    destruct (toLowerCase ("" ++ r)); cbn [includes]; now rewrite Hp.
  - cbn [includes] in H. apply orb_true_iff in H as [H|H].
    + pose proof (prefix_lower p (String c n) r H Hl) as Hp.
      rewrite append_cons in *. cbn [toLowerCase] in *. cbn [includes].
      now rewrite Hp.
    + rewrite append_cons. cbn [toLowerCase includes].
      rewrite (IH H). apply orb_true_r.
Qed.

(** A package whose text has no "theme" has none in its name either. *)
Lemma name_without_theme (pkg : Package) :
  includes (packageText pkg) "theme" = false ->
  includes (pkg_name pkg) "theme" = false.
Proof.
  unfold packageText. intros H.
  destruct (includes (pkg_name pkg) "theme") eqn:E; [|reflexivity].
  rewrite (includes_lower_app _ "theme" _ E eq_refl) in H. discriminate.
Qed.

(** C3 (as amended): the fallback puts a package named
    [starlight-theme-nova] with the themes; a package whose lower-cased
    "name description" text contains "vscode", "cli" or "generator" and not
    "theme" with the tools; a package whose text contains none of the four
    words with the plugins; and in each case in no other list. *)
Theorem fallbackCategorization_assigns (packages : list Package) (pkg : Package) :
  In pkg packages ->
  let r := fallbackCategorization packages in
  (pkg_name pkg = "starlight-theme-nova" ->
   forall c, In (pkgEntry pkg) (categorizedAs r c) <-> c = Themes) /\
  (includes (packageText pkg) "theme" = false ->
   includes (packageText pkg) "vscode" || includes (packageText pkg) "cli"
     || includes (packageText pkg) "generator" = true ->
   forall c, In (pkgEntry pkg) (categorizedAs r c) <-> c = Tools) /\
  (includes (packageText pkg) "theme" = false ->
   includes (packageText pkg) "vscode" = false ->
   includes (packageText pkg) "cli" = false ->
   includes (packageText pkg) "generator" = false ->
   forall c, In (pkgEntry pkg) (categorizedAs r c) <-> c = Plugins).
Proof.
  intros Hin r. subst r.
  assert (Hcat : forall k, heuristicCategory pkg = k ->
            forall c, In (pkgEntry pkg)
                         (categorizedAs (fallbackCategorization packages) c) <-> c = k).
  { intros k <- c. now apply fallbackCategorization_total. }
  split; [|split].
  - intros Hn. apply Hcat. unfold heuristicCategory.
    rewrite Hn. now rewrite orb_true_r.
  - intros Ht Hk. apply Hcat. unfold heuristicCategory.
    now rewrite Ht, (name_without_theme pkg Ht), Hk.
  - intros Ht H1 H2 H3. apply Hcat. unfold heuristicCategory.
    now rewrite Ht, (name_without_theme pkg Ht), H1, H2, H3.
Qed.

(** ** Properties of the link validator *)

Ltac unfold_m :=
  unfold tryCatch, bind, settle, await, ret, throw, get, put, fetch,
    addProcessed, setOfficialData.

Lemma checkGeneralUrl_runs (u : string) (st : State) :
  exists b st', checkGeneralUrl u st = (Ok b, st')
    /\ officialData st' = officialData st
    /\ processedUrls st' = processedUrls st.
Proof.
  unfold checkGeneralUrl. unfold_m.
  destruct (net (requests st) _) as [resp|]; cbn; [|eauto].
  destruct ((status resp =? 405)%Z || (status resp =? 403)%Z); cbn; [|eauto].
  destruct (net _ _); cbn; eauto.
Qed.

Lemma checkGitHubRepo_runs (u : string) (st : State) :
  exists b st', checkGitHubRepo u st = (Ok b, st')
    /\ officialData st' = officialData st
    /\ processedUrls st' = processedUrls st.
Proof.
  unfold checkGitHubRepo.
  destruct (githubMatch u) as [[owner rp]|].
  - unfold_m. destruct (net (requests st) _) as [resp|]; cbn; [|eauto].
    destruct (status resp =? 200)%Z.
    + destruct (repoFork (body resp)) as [[|]|]; cbn; eauto.
    + destruct (status resp =? 404)%Z; cbn; [eauto|].
      destruct (status resp =? 403)%Z; cbn; eauto.
  - unfold tryCatch.
    destruct (checkGeneralUrl_runs u st) as (b & st' & -> & H1 & H2). eauto.
Qed.

(** A call with an address already in [processedUrls] answers [true] and
    sends nothing. *)
Lemma validateUrl_seen (s : string) (st : State) :
  isEmpty s = false -> trim s ∈ processedUrls st ->
  validateUrl (Some s) st = (Ok true, st).
Proof.
  intros Hs Hin. unfold validateUrl. rewrite Hs. unfold_m.
  now rewrite (bool_decide_eq_true_2 _ Hin).
Qed.

(** Every call returns, leaves [officialData] alone and leaves the address,
    when there is one, in [processedUrls]. *)
Lemma validateUrl_runs (u : option string) (st : State) :
  exists b st', validateUrl u st = (Ok b, st')
    /\ officialData st' = officialData st
    /\ (forall s, u = Some s -> isEmpty s = false -> trim s ∈ processedUrls st').
Proof.
  destruct u as [s|]; [|exists false, st; repeat split; intros; discriminate].
  unfold validateUrl. destruct (isEmpty s) eqn:Hs.
  { exists false, st. repeat split. intros s' [= <-]. congruence. }
  unfold bind at 1. unfold get at 1.
  destruct (bool_decide (trim s ∈ processedUrls st)) eqn:Hd.
  - exists true, st. repeat split. intros s' [= <-] _.
    now apply bool_decide_eq_true in Hd.
  - unfold bind, addProcessed, bind, get, put.
    set (st1 := {| officialData := officialData st;
                   processedUrls := {[trim s]} ∪ processedUrls st;
                   requests := requests st |}).
    assert (Hin : trim s ∈ processedUrls st1) by (cbn; apply elem_of_union; left; now apply elem_of_singleton).
    destruct (includes (trim s) "github.com").
    + destruct (checkGitHubRepo_runs (trim s) st1) as (b & st' & -> & H1 & H2).
      exists b, st'. repeat split; [assumption|].
      intros s' [= <-] _. now rewrite H2.
    + destruct (checkGeneralUrl_runs (trim s) st1) as (b & st' & -> & H1 & H2).
      exists b, st'. repeat split; [assumption|].
      intros s' [= <-] _. now rewrite H2.
Qed.

(** Whatever the first call for an address returned, a later call returns
    [true] without sending a request. *)
Lemma validateUrl_again (s : string) (st st1 : State) (r : result bool) :
  isEmpty s = false ->
  validateUrl (Some s) st = (r, st1) ->
  validateUrl (Some s) st1 = (Ok true, st1).
Proof.
  intros Hs H.
  destruct (validateUrl_runs (Some s) st) as (b & st' & E & _ & Hin).
  rewrite E in H. injection H as _ <-.
  apply validateUrl_seen; [assumption|]. now apply Hin.
Qed.

(** C10: for an absent or empty address [validateUrl] answers [false] and
    leaves the state as it was: nothing is added to [processedUrls] and no
    request is sent. *)
Theorem validateUrl_falsy (st : State) :
  validateUrl None st = (Ok false, st) /\
  validateUrl (Some "") st = (Ok false, st).
Proof. split; reflexivity. Qed.

Ltac policy_cases :=
  repeat match goal with
    | |- _ /\ _ => split
    | |- forall _, _ => intro
    | H : Some _ = Some _ |- _ => injection H as <-
    | H : None = Some _ |- _ => discriminate H
    end;
  try reflexivity; try congruence.

(** C5: for an address in which the repository pattern finds [owner] and
    [rp], [checkGitHubRepo] sends one GET to the API and answers by the
    status of the reply: 200 with a fork, no; 200 without, yes; 404, no;
    403, yes; any other status, a rejected fetch or a body that cannot be
    read, no. *)
Theorem checkGitHubRepo_policy (u owner rp : string) (st : State) :
  githubMatch u = Some (owner, rp) ->
  let req :=
    mkRequest GET ("https://api.github.com/repos/" ++ owner ++ "/" ++ rp) apiToken "" in
  let reply := net (requests st) req in
  let outcome := checkGitHubRepo u st in
  snd outcome = logRequest req st /\
  (forall resp, reply = Some resp -> status resp = 200%Z ->
     repoFork (body resp) = Some true -> fst outcome = Ok false) /\
  (forall resp, reply = Some resp -> status resp = 200%Z ->
     repoFork (body resp) = Some false -> fst outcome = Ok true) /\
  (forall resp, reply = Some resp -> status resp = 404%Z -> fst outcome = Ok false) /\
  (forall resp, reply = Some resp -> status resp = 403%Z -> fst outcome = Ok true) /\
  (forall resp, reply = Some resp -> status resp <> 200%Z -> status resp <> 404%Z ->
     status resp <> 403%Z -> fst outcome = Ok false) /\
  (reply = None -> fst outcome = Ok false) /\
  (forall resp, reply = Some resp -> status resp = 200%Z ->
     repoFork (body resp) = None -> fst outcome = Ok false).
Proof.
  intros Hm req reply outcome.
  subst outcome. unfold checkGitHubRepo. rewrite Hm. unfold_m.
  fold req. fold reply.
  destruct reply as [resp|]; cbn.
  - destruct (Z.eqb_spec (status resp) 200) as [E200|N200].
    + destruct (repoFork (body resp)) as [[|]|] eqn:Ef; cbn; policy_cases.
    + destruct (Z.eqb_spec (status resp) 404) as [E404|N404]; cbn;
        [policy_cases|].
      destruct (Z.eqb_spec (status resp) 403) as [E403|N403]; cbn; policy_cases.
  - policy_cases.
Qed.

(** ** Properties of the monad *)

Lemma bind_Ok {A B} (m : M A) (k : A -> M B) (st st' : State) (b : B) :
  bind m k st = (Ok b, st') ->
  exists a st1, m st = (Ok a, st1) /\ k a st1 = (Ok b, st').
Proof.
  unfold bind. destruct (m st) as [[a|] st1]; [eauto | discriminate].
Qed.

Lemma bind_Throw {A B} (m : M A) (k : A -> M B) (st st' : State) :
  m st = (Throw, st') -> bind m k st = (Throw, st').
Proof. unfold bind. now intros ->. Qed.

Lemma bind_step {A B} (m : M A) (k : A -> M B) (st st1 : State) (a : A) :
  m st = (Ok a, st1) -> bind m k st = k a st1.
Proof. unfold bind. now intros ->. Qed.

Lemma tryCatch_ret_runs {A} (m : M A) (d : A) (st : State) :
  exists a st', tryCatch m (ret d) st = (Ok a, st').
Proof. unfold tryCatch, ret. destruct (m st) as [[a|] st']; eauto. Qed.

Lemma keepsData_ret {A} (a : A) : keepsData (ret a).
Proof. intros st r st' [= _ ->]. reflexivity. Qed.

Lemma keepsData_throw {A} : keepsData (@throw A).
Proof. intros st r st' [= _ ->]. reflexivity. Qed.

Lemma keepsData_get : keepsData get.
Proof. intros st r st' [= _ ->]. reflexivity. Qed.

Lemma keepsData_bind {A B} (m : M A) (k : A -> M B) :
  keepsData m -> (forall a, keepsData (k a)) -> keepsData (bind m k).
Proof.
  intros Hm Hk st r st'. unfold bind.
  destruct (m st) as [[a|] st1] eqn:E.
  - intros H. rewrite (Hk a _ _ _ H). eapply Hm, E.
  - intros [= _ <-]. eapply Hm, E.
Qed.

Lemma keepsData_tryCatch {A} (m h : M A) :
  keepsData m -> keepsData h -> keepsData (tryCatch m h).
Proof.
  intros Hm Hh st r st'. unfold tryCatch.
  destruct (m st) as [[a|] st1] eqn:E.
  - intros [= _ <-]. eapply Hm, E.
  - intros H. rewrite (Hh _ _ _ H). eapply Hm, E.
Qed.

Lemma keepsData_settle {A} (m : M A) : keepsData m -> keepsData (settle m).
Proof.
  intros Hm st r st'. unfold settle.
  destruct (m st) as [a st1] eqn:E. intros [= _ <-]. eapply Hm, E.
Qed.

Lemma keepsData_await {A} (r : result A) : keepsData (await r).
Proof. destruct r; [apply keepsData_ret | apply keepsData_throw]. Qed.

Lemma keepsData_mapM {A B} (f : A -> M B) (l : list A) :
  (forall a, keepsData (f a)) -> keepsData (mapM f l).
Proof.
  intros Hf. induction l as [|x l IH]; cbn [mapM].
  - apply keepsData_ret.
  - apply keepsData_bind; [apply Hf|]. intros y.
    apply keepsData_bind; [apply IH|]. intros ys. apply keepsData_ret.
Qed.

Lemma keepsData_fetch (r : Request) : keepsData (fetch r).
Proof.
  intros st res st'. unfold fetch.
  destruct (net (requests st) r); intros [= _ <-]; reflexivity.
Qed.

Lemma keepsData_addProcessed (u : string) : keepsData (addProcessed u).
Proof. intros st r st' [= _ <-]. reflexivity. Qed.

Create HintDb keeps.

#[local] Hint Resolve keepsData_ret keepsData_throw keepsData_get keepsData_bind
  keepsData_tryCatch keepsData_settle keepsData_await keepsData_mapM
  keepsData_fetch keepsData_addProcessed : keeps.

Ltac keeps :=
  repeat first
    [ progress eauto with keeps
    | apply keepsData_bind; [|intro]
    | apply keepsData_tryCatch
    | match goal with
      | |- keepsData (if ?c then _ else _) => destruct c
      | |- keepsData (match ?x with _ => _ end) => destruct x
      end ].

Lemma keepsData_validateUrl (u : option string) : keepsData (validateUrl u).
Proof.
  intros st r st' H.
  destruct (validateUrl_runs u st) as (b & st1 & E & Hd & _).
  rewrite E in H. now injection H as _ <-.
Qed.

Lemma keepsData_fetchText (u : string) : keepsData (fetchText u).
Proof. unfold fetchText. keeps. Qed.

Lemma keepsData_showcaseSite (r : result Response) : keepsData (showcaseSite r).
Proof.
  unfold showcaseSite. pose proof keepsData_validateUrl. keeps.
Qed.

Lemma keepsData_fetchAstroShowcase : keepsData fetchAstroShowcase.
Proof.
  unfold fetchAstroShowcase. pose proof keepsData_showcaseSite. keeps.
Qed.

Lemma keepsData_searchNPM (u : string) : keepsData (searchNPM u).
Proof. unfold searchNPM. keeps. Qed.

Lemma keepsData_fetchSupplementaryNPM : keepsData fetchSupplementaryNPM.
Proof. unfold fetchSupplementaryNPM. pose proof keepsData_searchNPM. keeps. Qed.

Lemma keepsData_callGitHubModels (prompt : string) : keepsData (callGitHubModels prompt).
Proof. unfold callGitHubModels. keeps. Qed.

Lemma keepsData_categorizeSupplementary (packages : list Package) :
  keepsData (categorizeSupplementary packages).
Proof.
  unfold categorizeSupplementary. pose proof keepsData_callGitHubModels. keeps.
Qed.

(** ** Failure of an origin *)

Lemma fetch_fails (r : Request) (st : State) :
  fetchFails (net (requests st) r) = true ->
  (exists resp, fetch r st = (Ok resp, logRequest r st) /\ ok resp = false)
  \/ fetch r st = (Throw, logRequest r st).
Proof.
  unfold fetch, fetchFails, logRequest.
  destruct (net (requests st) r) as [resp|]; [|now right].
  intros H. apply negb_true_iff in H. left. eauto.
Qed.

Lemma fetchText_fails (u : string) (st : State) :
  fetchFails (net (requests st) (mkRequest GET u None "")) = true ->
  fetchText u st = (Throw, logRequest (mkRequest GET u None "") st).
Proof.
  intros H. unfold fetchText.
  destruct (fetch_fails _ _ H) as [(resp & E & Hok) | E].
  - rewrite (bind_step _ _ _ _ _ E), Hok. reflexivity.
  - now apply bind_Throw.
Qed.

(** A page of the official sources, fetched and parsed: the promise
    settles, and it is rejected when the fetch fails. *)
Lemma page_settles {A} (u : string) (f : string -> A) (st : State) :
  exists r st',
    settle (let* c := fetchText u in ret (f c)) st = (Ok r, st') /\
    requests st' = (requests st ++ [mkRequest GET u None ""])%list /\
    (fetchFails (net (requests st) (mkRequest GET u None "")) = true -> r = Throw).
Proof.
  unfold settle.
  destruct (fetchFails (net (requests st) (mkRequest GET u None ""))) eqn:F.
  - rewrite (bind_Throw _ _ _ _ (fetchText_fails u st F)).
    eexists _, _. repeat split.
  - unfold fetchText, bind, fetch. unfold fetchFails in F.
    destruct (net (requests st) _) as [resp|]; [|discriminate].
    apply negb_false_iff in F. rewrite F. cbn.
    eexists _, _. repeat split. discriminate.
Qed.

Lemma fetchOfficialSources_fails (st : State) (o : Origin) :
  (o = OfficialPlugins \/ o = OfficialThemes \/ o = OfficialCommunity
   \/ o = OfficialShowcases) ->
  (forall sent, fetchFails (net sent (originRequest o)) = true) ->
  exists st', fetchOfficialSources st = (Throw, st').
Proof.
  intros Ho Hfail. unfold fetchOfficialSources.
  destruct (page_settles SOURCES_plugins parseLinkCard st) as (r1 & st1 & E1 & _ & F1).
  rewrite (bind_step _ _ _ _ _ E1).
  destruct (page_settles SOURCES_themes parseThemeGrid st1) as (r2 & st2 & E2 & _ & F2).
  rewrite (bind_step _ _ _ _ _ E2).
  destruct (page_settles SOURCES_community
              (fun c => (parseLinkCard c, parseYouTubeGrid c)) st2)
    as (r3 & st3 & E3 & _ & F3).
  rewrite (bind_step _ _ _ _ _ E3).
  destruct (page_settles SOURCES_showcases parseCardComponent st3)
    as (r4 & st4 & E4 & _ & F4).
  rewrite (bind_step _ _ _ _ _ E4).
  destruct Ho as [-> | [-> | [-> | ->]]].
  - rewrite (F1 (Hfail _)). eauto.
  - rewrite (F2 (Hfail _)). destruct r1; cbn; eauto.
  - rewrite (F3 (Hfail _)). destruct r1, r2; cbn; eauto.
  - rewrite (F4 (Hfail _)). destruct r1, r2, r3; cbn; eauto.
Qed.

Lemma searchNPM_fails (u : string) (st : State) :
  fetchFails (net (requests st) (mkRequest GET u None "")) = true ->
  exists st', searchNPM u st = (Throw, st').
Proof.
  intros H. unfold searchNPM.
  destruct (fetch_fails _ _ H) as [(resp & E & Hok) | E].
  - rewrite (bind_step _ _ _ _ _ E), Hok. cbn. eauto.
  - rewrite (bind_Throw _ _ _ _ E). eauto.
Qed.

Lemma fetchSupplementaryNPM_fails (st : State) (o : Origin) :
  (o = NpmSearch1 \/ o = NpmSearch2) ->
  (forall sent, fetchFails (net sent (originRequest o)) = true) ->
  exists st', fetchSupplementaryNPM st = (Throw, st').
Proof.
  intros Ho Hfail. unfold fetchSupplementaryNPM.
  destruct Ho as [-> | ->].
  - destruct (searchNPM_fails NPM_SEARCH_1 st (Hfail _)) as (st' & E).
    rewrite (bind_Throw _ _ _ _ E). eauto.
  - destruct (searchNPM NPM_SEARCH_1 st) as [[hits|] st1] eqn:E1.
    + rewrite (bind_step _ _ _ _ _ E1).
      destruct (searchNPM_fails NPM_SEARCH_2 st1 (Hfail _)) as (st' & E).
      rewrite (bind_Throw _ _ _ _ E). eauto.
    + rewrite (bind_Throw _ _ _ _ E1). eauto.
Qed.

Lemma fetchAstroShowcase_runs (st : State) :
  exists sites st', fetchAstroShowcase st = (Ok sites, st').
Proof. unfold fetchAstroShowcase. apply tryCatch_ret_runs. Qed.

Lemma collectAllData_npm_fails (st : State) (o : Origin) :
  (o = NpmSearch1 \/ o = NpmSearch2) ->
  (forall sent, fetchFails (net sent (originRequest o)) = true) ->
  exists st', collectAllData st = (Throw, st').
Proof.
  intros Ho Hfail. unfold collectAllData.
  destruct (fetchOfficialSources st) as [[[]|] st1] eqn:E1;
    [|rewrite (bind_Throw _ _ _ _ E1); eauto].
  rewrite (bind_step _ _ _ _ _ E1).
  destruct (fetchAstroShowcase_runs st1) as (astro & st2 & E2).
  rewrite (bind_step _ _ _ _ _ E2).
  unfold get at 1. unfold bind at 1. unfold setOfficialData at 1.
  unfold bind at 1. unfold get at 1. unfold bind at 1. unfold put at 1.
  match goal with
  | |- context [bind fetchSupplementaryNPM ?k ?s] =>
      destruct (fetchSupplementaryNPM_fails s o Ho Hfail) as (st' & E3);
      rewrite (bind_Throw _ k _ _ E3)
  end.
  eauto.
Qed.

Lemma run_Throw (st st' : State) :
  collectAllData st = (Throw, st') -> run st = (Exit1, st').
Proof. intros H. unfold run. now rewrite (bind_Throw _ _ _ _ H). Qed.

(** The showcase listing is the one origin whose failure is caught:
    [fetchAstroShowcase] answers with no site, after the one request. *)
Lemma fetchAstroShowcase_fails (st : State) :
  (forall sent, fetchFails (net sent (originRequest AstroShowcase)) = true) ->
  fetchAstroShowcase st = (Ok [], logRequest (originRequest AstroShowcase) st).
Proof.
  intros Hfail. unfold fetchAstroShowcase, tryCatch.
  destruct (fetch_fails _ st (Hfail (requests st))) as [(resp & E & Hok) | E].
  - cbn [originRequest] in E. rewrite (bind_step _ _ _ _ _ E), Hok. reflexivity.
  - cbn [originRequest] in E. rewrite (bind_Throw _ _ _ _ E). reflexivity.
Qed.

(** ** What the merge guarantees *)

Lemma insertSorted_perm (cmp : Item -> Item -> Z) (x : Item) (l : list Item) :
  Permutation (insertSorted cmp x l) (x :: l).
Proof.
  induction l as [|y l IH]; cbn [insertSorted]; [reflexivity|].
  destruct (cmp x y <=? 0)%Z; [reflexivity|].
  rewrite IH. apply perm_swap.
Qed.

(** Sorting rearranges a list and nothing more. *)
Lemma sortItems_perm (l : list Item) : Permutation (sortItems l) l.
Proof.
  unfold sortItems. induction l as [|x l IH]; cbn [fold_right]; [reflexivity|].
  rewrite insertSorted_perm. now apply perm_skip.
Qed.

Lemma sortItems_In (l : list Item) (x : Item) : In x (sortItems l) <-> In x l.
Proof.
  split; apply Permutation_in; [|symmetry]; apply sortItems_perm.
Qed.

Lemma isDuplicate_pkgEntry (p : Package) (off : Item) :
  isDuplicate (pkgEntry p) off = isDuplicate (pkgItem p) off.
Proof. reflexivity. Qed.

Lemma mergeShowcases_keeps (astro existing : list Item) (y : Item) :
  In y existing -> In y (mergeShowcases astro existing).
Proof.
  unfold mergeShowcases. revert existing.
  induction astro as [|site astro IH]; intros acc Hy; cbn [fold_left]; [assumption|].
  apply IH. destruct (negb _); [apply in_or_app; now left | assumption].
Qed.

(** The filter keeps only packages that duplicate no official item. *)
Lemma filterLoop_kept (official : list Item) (packages : list Package) :
  forall st kept st',
    filterLoop official packages st = (Ok kept, st') ->
    officialData st' = officialData st /\
    forall p, In p kept ->
      In p packages /\ forall off, In off official -> isDuplicate (pkgItem p) off = false.
Proof.
  induction packages as [|pkg rest IH]; intros st kept st'; cbn [filterLoop].
  - intros [= <- <-]. split; [reflexivity | intros p []].
  - assert (Hrest : filterLoop official rest st = (Ok kept, st') ->
                    officialData st' = officialData st /\
                    forall p, In p kept ->
                      In p (pkg :: rest) /\
                      forall off, In off official -> isDuplicate (pkgItem p) off = false).
    { intros H. destruct (IH _ _ _ H) as [Hd Hk]. split; [assumption|].
      intros p Hp. destruct (Hk p Hp). split; [now right | assumption]. }
    destruct (existsb _ official) eqn:Edup; [exact Hrest|].
    destruct (negb (isRelevant pkg)); [exact Hrest|].
    destruct (validateUrl_runs (pkg_homepage pkg) st) as (b & st1 & E & Hd1 & _).
    rewrite (bind_step _ _ _ _ _ E).
    destruct b; cbn [negb].
    + intros H. apply bind_Ok in H as (kept' & st2 & H & [= <- <-]).
      destruct (IH _ _ _ H) as [Hd Hk]. split; [congruence|].
      intros p [<- | Hp].
      * split; [now left|]. intros off Hoff.
        destruct (isDuplicate (pkgItem pkg) off) eqn:D; [|reflexivity].
        assert (existsb (fun off => isDuplicate (pkgItem pkg) off) official = true);
          [|congruence].
        apply existsb_exists. eauto.
      * destruct (Hk p Hp). split; [now right | assumption].
    + intros H. destruct (IH _ _ _ H) as [Hd Hk]. split; [congruence|].
      intros p Hp. destruct (Hk p Hp). split; [now right | assumption].
Qed.

Lemma fallbackCategorization_fromPackages (packages : list Package) :
  fromPackages packages (fallbackCategorization packages).
Proof.
  intros x Hx. unfold fallbackCategorization in Hx. rewrite fallback_fold in Hx.
  cbn in Hx. unfold entriesOf in Hx.
  assert (H : exists c, In x (map pkgEntry
                (List.filter (fun p => Category_eqb (heuristicCategory p) c) packages)))
    by (destruct Hx as [H | [H | H]]; eauto).
  destruct H as (c & H). apply in_map_iff in H as (p & <- & Hp).
  apply filter_In in Hp as [Hp _]. eauto.
Qed.

Lemma labelLoop_fromPackages (labels : nat -> Label) (packages : list Package) :
  forall i rest acc c,
    incl rest packages -> fromPackages packages acc ->
    labelLoop labels i rest acc = Some c -> fromPackages packages c.
Proof.
  intros i rest. revert i.
  induction rest as [|pkg rest IH]; intros i acc c Hincl Hacc; cbn [labelLoop].
  - now intros [= <-].
  - assert (Hpkg : In pkg packages) by (apply Hincl; now left).
    assert (Hrest : incl rest packages) by (intros w Hw; apply Hincl; now right).
    assert (Hpush : forall acc', 
               (acc' = pushTheme acc (pkgEntry pkg) \/ acc' = pushTool acc (pkgEntry pkg)
                \/ acc' = pushPlugin acc (pkgEntry pkg)) -> fromPackages packages acc').
    { intros acc' Hacc' x Hx.
      assert (Hx' : (In x (c_plugins acc) \/ In x (c_themes acc) \/ In x (c_tools acc))
                    \/ pkgEntry pkg = x).
      { destruct Hacc' as [-> | [-> | ->]];
          cbn [c_plugins c_themes c_tools pushTheme pushTool pushPlugin] in Hx;
          rewrite ?in_app_iff in Hx; cbn [In] in Hx; tauto. }
      destruct Hx' as [Hx' | <-]; [now apply Hacc | eauto]. }
    destruct (labelIncludes (labels i) "theme") as [[|]|]; [| |discriminate].
    + apply IH; [assumption|]. apply Hpush. now left.
    + destruct (labelIncludes (labels i) "tool") as [[|]|]; [| |discriminate];
        (apply IH; [assumption|]; apply Hpush); [right; now left | right; now right].
Qed.

(** Whichever way the categorisation goes, every categorised item is the
    entry of one of the packages handed in. *)
Lemma categorizeSupplementary_fromPackages (packages : list Package) (st st' : State)
    (c : Categorized) :
  categorizeSupplementary packages st = (Ok c, st') -> fromPackages packages c.
Proof.
  destruct packages as [|p0 l].
  - cbn. intros [= <- _] x Hx. cbn in Hx. tauto.
  - unfold categorizeSupplementary. set (packages := p0 :: l).
    unfold tryCatch.
    destruct (bind _ _ st) as [[c'|] st1] eqn:E.
    + intros [= <- _]. apply bind_Ok in E as (text & st2 & _ & E).
      destruct (firstObject text).
      * destruct (jsonParse s); [|discriminate].
        destruct (labelLoop _ 0 packages emptyCategorized) eqn:El; [|discriminate].
        injection E as <- _.
        eapply labelLoop_fromPackages; [apply incl_refl| |exact El].
        intros x Hx. cbn in Hx. tauto.
      * injection E as <- _. apply fallbackCategorization_fromPackages.
    + intros [= <- _]. apply fallbackCategorization_fromPackages.
Qed.

Lemma setOfficialData_run (d : OfficialData) (st : State) :
  setOfficialData d st =
  (Ok tt, {| officialData := d; processedUrls := processedUrls st;
             requests := requests st |}).
Proof. reflexivity. Qed.

(** ** Further properties of the matcher *)

Lemma span_app (f : ascii -> bool) (a t : string) :
  (forall x, In x (list_ascii_of_string a) -> f x = true) ->
  span f (a ++ t) = (a ++ fst (span f t), snd (span f t)).
Proof.
  induction a as [|x a IH]; intros Ha.
  - rewrite append_nil. cbn. now destruct (span f t).
  - rewrite append_cons. cbn [span]. rewrite (Ha x) by now left.
    rewrite IH by (intros y Hy; apply Ha; now right). reflexivity.
Qed.

Lemma append_empty_r (s : string) : s ++ "" = s.
Proof. induction s as [|c s IH]; [reflexivity|]. rewrite append_cons. now rewrite IH. Qed.

(** The owner and the repository read from
    [https://github.com/<owner>/<repo><tail>], where the tail is empty or
    starts with a slash, a hash or a question mark. *)
Lemma githubMatch_https_tail (owner rp tail : string) :
  owner <> "" ->
  (forall x, In x (list_ascii_of_string owner) -> notSlash x = true) ->
  rp <> "" ->
  (forall x, In x (list_ascii_of_string rp) -> repoChar x = true) ->
  fst (span repoChar tail) = "" ->
  githubMatch ("https://github.com/" ++ owner ++ "/" ++ rp ++ tail) = Some (owner, rp).
Proof.
  intros Hne Hown Hrp Hrpc Htail.
  change ("https://github.com/" ++ owner ++ "/" ++ rp ++ tail)
    with ("https://" ++ "github.com/" ++ owner ++ String "/" (rp ++ tail)).
  rewrite !append_cons, !append_nil.
  do 8 (rewrite githubMatch_skip by reflexivity).
  apply githubMatch_here.
  unfold githubAt. cbn [dropPrefix Ascii.eqb Bool.eqb].
  rewrite span_app_stop by (assumption || reflexivity).
  destruct owner as [|o owner']; [congruence|]. cbn [isEmpty].
  rewrite span_app by assumption. rewrite Htail, append_empty_r.
  destruct rp; [congruence | reflexivity].
Qed.

(** X1: the repository name read from a GitHub address stops at the first
    slash, hash or question mark after it: a path, a query or a fragment
    behind [https://github.com/<owner>/<repo>] does not change the slug. *)
Theorem extractRepoSlug_ignores_tail (owner rp rest : string) (c : ascii) :
  owner <> "" ->
  (forall x, In x (list_ascii_of_string owner) -> notSlash x = true) ->
  rp <> "" ->
  (forall x, In x (list_ascii_of_string rp) -> repoChar x = true) ->
  repoChar c = false ->
  extractRepoSlug (Some ("https://github.com/" ++ owner ++ "/" ++ rp ++ String c rest)) = rp
  /\ extractRepoSlug (Some ("https://github.com/" ++ owner ++ "/" ++ rp)) = rp.
Proof.
  intros Ho Hoc Hr Hrc Hc. unfold extractRepoSlug, getRepo. split.
  - rewrite githubMatch_https_tail; try assumption.
    + cbn. destruct rp; [congruence | reflexivity].
    + cbn [span]. now rewrite Hc.
  - rewrite githubMatch_https; try assumption.
    cbn. destruct rp; [congruence | reflexivity].
Qed.

Lemma truthy_Some_cons (c : ascii) (s : string) (v : option string) :
  orElse (Some (String c s)) v = Some (String c s).
Proof. reflexivity. Qed.

(** X2: two items whose addresses are GitHub repositories with the same
    repository name are duplicates for [isDuplicate], whoever the owners
    are. *)
Theorem isDuplicate_same_repo_name (a b : Item) (owner1 owner2 rp : string) :
  owner1 <> "" -> owner2 <> "" ->
  (forall x, In x (list_ascii_of_string owner1) -> notSlash x = true) ->
  (forall x, In x (list_ascii_of_string owner2) -> notSlash x = true) ->
  rp <> "" ->
  (forall x, In x (list_ascii_of_string rp) -> repoChar x = true) ->
  url a = Some ("https://github.com/" ++ owner1 ++ "/" ++ rp) ->
  url b = Some ("https://github.com/" ++ owner2 ++ "/" ++ rp) ->
  isDuplicate a b = true.
Proof.
  intros H1 H2 Hc1 Hc2 Hr Hrc Ha Hb. unfold isDuplicate.
  destruct (_ && _ && _); [reflexivity|].
  rewrite Ha, Hb.
  change ("https://github.com/" ++ owner1 ++ "/" ++ rp)
    with (String "h" ("ttps://github.com/" ++ owner1 ++ "/" ++ rp)).
  rewrite truthy_Some_cons.
  change (String "h" ("ttps://github.com/" ++ owner1 ++ "/" ++ rp))
    with ("https://github.com/" ++ owner1 ++ "/" ++ rp).
  unfold getRepo. rewrite !githubMatch_https by assumption.
  cbn. apply String.eqb_refl.
Qed.

Lemma keysEqual_truthy_sym (x y : string) :
  truthyV (keysEqual x y) = truthyV (keysEqual y x).
Proof.
  unfold keysEqual, andV. destruct x, y; cbn [truthyV isEmpty negb]; try reflexivity.
  rewrite (String.eqb_sym (String a0 y)).
  rewrite <- !orb_assoc. f_equal. apply orb_comm.
Qed.

Lemma truthyV_orV (x y : value) : truthyV (orV x y) = truthyV x || truthyV y.
Proof. unfold orV. destruct (truthyV x) eqn:E; [now rewrite E | reflexivity]. Qed.

Lemma truthyV_andV (x y : value) : truthyV (andV x y) = truthyV x && truthyV y.
Proof. unfold andV. destruct (truthyV x) eqn:E; [reflexivity | now rewrite E]. Qed.

(** X3: whether two items are likely the same theme does not depend on the
    order in which they are given. *)
Theorem isLikelySameTheme_sym (a b : Item) :
  truthyV (isLikelySameTheme a b) = truthyV (isLikelySameTheme b a).
Proof.
  unfold isLikelySameTheme.
  rewrite !truthyV_orV, !truthyV_andV.
  set (ka := normalizeThemeKey (title a)). set (kb := normalizeThemeKey (title b)).
  set (ra := normalizeThemeKey
               (Some (extractRepoSlug (orElse (orElse (url a) (homepage a)) (repo a))))).
  set (rb := normalizeThemeKey
               (Some (extractRepoSlug (orElse (orElse (url b) (homepage b)) (repo b))))).
  rewrite (keysEqual_truthy_sym kb ka), (keysEqual_truthy_sym rb ra).
  cbn [truthyV].
  destruct (truthyV (keysEqual ka kb)), (truthyV (keysEqual ka rb)),
    (truthyV (keysEqual kb ra)), (truthyV (keysEqual ra rb)),
    (negb (isEmpty ra)), (negb (isEmpty rb)); reflexivity.
Qed.

(** X4: whether two items have the same title does not depend on their
    order, and an item without a title, or with a blank one, has the same
    title as no item. *)
Theorem isSameTitle_sym (a b : Item) :
  truthyV (isSameTitle a b) = truthyV (isSameTitle b a) /\
  (trim (orStr (title a) "") = "" -> truthyV (isSameTitle a b) = false).
Proof.
  unfold isSameTitle. rewrite !truthyV_andV. cbn [truthyV]. split.
  - rewrite (String.eqb_sym (toLowerCase (trim (orStr (title b) "")))).
    destruct (String.eqb_spec (toLowerCase (trim (orStr (title a) "")))
                              (toLowerCase (trim (orStr (title b) "")))) as [E|E].
    + now rewrite E.
    + now rewrite !andb_false_r.
  - intros ->. reflexivity.
Qed.

Lemma removeAll_charClass (f : ascii -> bool) (s : string) (x : ascii) :
  In x (list_ascii_of_string (removeAll (charClass f) s 0)) -> f x = false.
Proof.
  induction s as [|c s IH]; cbn [removeAll charClass]; [intros []|].
  destruct (f c) eqn:E; [exact IH|].
  cbn [list_ascii_of_string In]. intros [<- | H]; [assumption | now apply IH].
Qed.

Lemma trimStart_In (s : string) (x : ascii) :
  In x (list_ascii_of_string (trimStart s)) -> In x (list_ascii_of_string s).
Proof.
  induction s as [|c s IH]; cbn [trimStart]; [intros []|].
  destruct (isSpace c); [intros H; right; now apply IH | trivial].
Qed.

Lemma trimEnd_In (s : string) (x : ascii) :
  In x (list_ascii_of_string (trimEnd s)) -> In x (list_ascii_of_string s).
Proof.
  induction s as [|c s IH]; cbn [trimEnd]; [intros []|].
  destruct (isSpace c && isEmpty (trimEnd s)); [intros []|].
  cbn [list_ascii_of_string In]. intros [<- | H]; [now left | right; now apply IH].
Qed.

(** X5: a theme key holds nothing but the lower-case letters a to z and
    the digits, whatever the title, address or slug it is made from. *)
Theorem normalizeThemeKey_alnum (input : option string) (x : ascii) :
  In x (list_ascii_of_string (normalizeThemeKey input)) -> isAlnumLower x = true.
Proof.
  unfold normalizeThemeKey, trim. intros H.
  apply trimEnd_In, trimStart_In, removeAll_charClass in H.
  now apply negb_false_iff in H.
Qed.

Lemma toLowerCase_app (a b : string) :
  toLowerCase (a ++ b) = toLowerCase a ++ toLowerCase b.
Proof.
  induction a as [|c a IH]; [reflexivity|].
  rewrite append_cons. cbn [toLowerCase]. now rewrite IH, append_cons.
Qed.

Lemma toLowerCase_In (s : string) (x : ascii) :
  In x (list_ascii_of_string (toLowerCase s)) ->
  exists y, In y (list_ascii_of_string s) /\ x = lowerChar y.
Proof.
  induction s as [|c s IH]; cbn [toLowerCase list_ascii_of_string In]; [intros []|].
  intros [<- | H]; [eauto|]. destruct (IH H) as (y & Hy & ->). eauto.
Qed.

Lemma trimEnd_app (a b : string) :
  trimEnd b <> "" -> trimEnd (a ++ b) = a ++ trimEnd b.
Proof.
  intros Hb. induction a as [|c a IH]; [reflexivity|].
  rewrite !append_cons. cbn [trimEnd]. rewrite IH.
  destruct (a ++ trimEnd b) eqn:E.
  - destruct a; [|discriminate]. rewrite append_nil in E. congruence.
  - cbn [isEmpty]. now rewrite andb_false_r.
Qed.

(** X6: the sort key of a scoped package name [@scope/name] is the name
    without its scope, in lower case and without trailing white space. *)
Theorem sortByPackageName_scoped (scope nm : string) :
  (forall x, In x (list_ascii_of_string scope) -> notSlash x = true) ->
  (forall x, In x (list_ascii_of_string nm) -> notSlash x = true) ->
  sortByPackageName (Some ("@" ++ scope ++ "/" ++ nm)) = toLowerCase (trimEnd nm).
Proof.
  intros Hs Hn. unfold sortByPackageName.
  change ("@" ++ scope ++ "/" ++ nm) with (String "@" (scope ++ String "/" nm)).
  cbn [orStr isEmpty]. unfold trim.
  assert (Hstart : forall r, trimStart (String "@" r) = String "@" r) by reflexivity.
  rewrite Hstart.
  assert (Hslash : trimEnd (String "/" nm) = String "/" (trimEnd nm)) by reflexivity.
  assert (Ht : trimEnd (String "@" (scope ++ String "/" nm))
               = String "@" (scope ++ String "/" (trimEnd nm))).
  { cbn [trimEnd]. rewrite trimEnd_app by (rewrite Hslash; discriminate).
    rewrite Hslash. reflexivity. }
  rewrite Ht. cbn [toLowerCase]. rewrite toLowerCase_app. cbn [toLowerCase].
  change (lowerChar "@") with "@"%char. change (lowerChar "/") with "/"%char.
  assert (Hat : forall r, startsWith (String "@" r) "@" = true)
    by (intros r; destruct r; reflexivity).
  rewrite Hat. unfold secondPart. cbn [span].
  change (negb (Ascii.eqb "@" "/")) with true. cbv iota.
  assert (Hlow : forall s, (forall x, In x (list_ascii_of_string s) -> notSlash x = true) ->
                 forall x, In x (list_ascii_of_string (toLowerCase s)) ->
                           negb (Ascii.eqb x "/") = true).
  { intros s Hall x Hx. apply toLowerCase_In in Hx as (y & Hy & ->).
    rewrite lowerChar_slash. now apply Hall. }
  rewrite span_app_stop; [|now apply Hlow | reflexivity].
  rewrite span_all; [reflexivity|].
  apply Hlow. intros x Hx. apply Hn. now apply trimEnd_In.
Qed.

(** ** Further properties of the link validator *)

(** X7: the generic check sends a HEAD request and, only when that is
    answered 405 or 403, one GET request; it answers whether the last
    response has a 2xx status, and [false] when a request is rejected.  It
    never throws and never sends a third request. *)
Theorem checkGeneralUrl_policy (u : string) (st : State) :
  let head := mkRequest HEAD u None "" in
  let again := mkRequest GET u None "" in
  match net (requests st) head with
  | None => checkGeneralUrl u st = (Ok false, logRequest head st)
  | Some r1 =>
      if (status r1 =? 405)%Z || (status r1 =? 403)%Z then
        match net (requests st ++ [head]) again with
        | None =>
            checkGeneralUrl u st = (Ok false, logRequest again (logRequest head st))
        | Some r2 =>
            checkGeneralUrl u st = (Ok (ok r2), logRequest again (logRequest head st))
        end
      else checkGeneralUrl u st = (Ok (ok r1), logRequest head st)
  end.
Proof.
  intros head again. unfold checkGeneralUrl. unfold_m. fold head.
  destruct (net (requests st) head) as [r1|]; [|reflexivity].
  destruct ((status r1 =? 405)%Z || (status r1 =? 403)%Z); [|reflexivity].
  cbn [requests]. fold again.
  destruct (net (requests st ++ [head]) again); reflexivity.
Qed.

(** X8: a call of [validateUrl] with a non-empty address never throws,
    whatever the network does, leaves [officialData] alone, and leaves
    [processedUrls] as it was plus the trimmed address. *)
Theorem validateUrl_records_address (s : string) (st : State) :
  isEmpty s = false ->
  exists b st',
    validateUrl (Some s) st = (Ok b, st') /\
    officialData st' = officialData st /\
    processedUrls st' = {[ trim s ]} ∪ processedUrls st.
Proof.
  intros Hs. unfold validateUrl. rewrite Hs.
  unfold bind at 1. unfold get at 1.
  destruct (bool_decide (trim s ∈ processedUrls st)) eqn:Hd.
  - exists true, st. repeat split.
    apply bool_decide_eq_true in Hd. symmetry.
    apply subseteq_union_1_L. now apply singleton_subseteq_l.
  - unfold bind, addProcessed, bind, get, put.
    set (st1 := {| officialData := officialData st;
                   processedUrls := {[trim s]} ∪ processedUrls st;
                   requests := requests st |}).
    destruct (includes (trim s) "github.com").
    + destruct (checkGitHubRepo_runs (trim s) st1) as (b & st' & -> & H1 & H2).
      exists b, st'. repeat split; assumption.
    + destruct (checkGeneralUrl_runs (trim s) st1) as (b & st' & -> & H1 & H2).
      exists b, st'. repeat split; assumption.
Qed.

(** X9: the addresses are remembered trimmed: once [validateUrl] has been
    called with an address, a call with any address that differs from it
    only by white space around it answers [true] and sends no request. *)
Theorem validateUrl_same_trim (s1 s2 : string) (st st1 : State) (r : result bool) :
  isEmpty s1 = false -> isEmpty s2 = false -> trim s1 = trim s2 ->
  validateUrl (Some s1) st = (r, st1) ->
  validateUrl (Some s2) st1 = (Ok true, st1).
Proof.
  intros H1 H2 Ht H.
  destruct (validateUrl_runs (Some s1) st) as (b & st' & E & _ & Hin).
  rewrite E in H. injection H as _ <-.
  apply validateUrl_seen; [assumption|]. rewrite <- Ht. now apply Hin.
Qed.

Lemma validateUrl_true (u : option string) (st st' : State) :
  validateUrl u st = (Ok true, st') -> truthy u = true.
Proof.
  destruct u as [s|]; [|discriminate]. unfold validateUrl.
  destruct s; [discriminate | reflexivity].
Qed.

(** ** Further properties of the data fetching *)

Lemma mapM_Forall {A B} (f : A -> M B) (P : B -> Prop) (l : list A) :
  (forall a st r st', f a st = (Ok r, st') -> P r) ->
  forall st rs st', mapM f l st = (Ok rs, st') -> Forall P rs.
Proof.
  intros Hf. induction l as [|x l IH]; intros st rs st'; cbn [mapM].
  - intros [= <- _]. constructor.
  - intros H. apply bind_Ok in H as (y & st1 & Hy & H).
    apply bind_Ok in H as (ys & st2 & Hys & [= <- _]).
    constructor; [eapply Hf, Hy | eapply IH, Hys].
Qed.


Lemma somes_In {A} (l : list (option A)) (x : A) : In x (somes l) -> In (Some x) l.
Proof.
  induction l as [|[y|] l IH]; cbn [somes In]; [intros []| |].
  - intros [-> | H]; [now left | right; now apply IH].
  - intros H. right. now apply IH.
Qed.


Lemma prefix_app_includes (a b n : string) :
  String.prefix (a ++ b) n = true -> includes n b = true.
Proof.
  revert n. induction a as [|c a IH]; intros n H.
  - rewrite append_nil in H. destruct n; cbn [includes]; now rewrite H.
  - rewrite append_cons in H. destruct n as [|d n]; [discriminate|].
    cbn [String.prefix] in H. destruct (ascii_dec c d); [|discriminate].
    cbn [includes]. rewrite (IH n H). apply orb_true_r.
Qed.

Lemma mapSet_In (k : string) (p : Package) (m : list (string * Package))
    (e : string * Package) :
  In e (mapSet k p m) -> (k, p) = e \/ In e m.
Proof.
  induction m as [|[k' p'] m IH]; cbn [mapSet In].
  - intros [H | []]. now left.
  - destruct (String.eqb k' k); cbn [In].
    + intros [H | H]; [now left | right; now right].
    + intros [H | H]; [right; now left|].
      destruct (IH H) as [H' | H']; [now left | right; now right].
Qed.

Lemma mapSet_NoDup (k : string) (p : Package) (m : list (string * Package)) :
  List.NoDup (map fst m) -> List.NoDup (map fst (mapSet k p m)).
Proof.
  induction m as [|[k' p'] m IH]; cbn [mapSet map fst]; intros H.
  - constructor; [intros [] | constructor].
  - destruct (String.eqb_spec k' k) as [->|Hne]; [exact H|].
    cbn [map fst]. inversion H as [|? ? Hnot Hnd]; subst.
    constructor; [|now apply IH].
    intros Hin. apply in_map_iff in Hin as ([k1 p1] & Hk & Hin). cbn in Hk. subst k1.
    apply mapSet_In in Hin as [[= Hk _] | Hin]; [congruence|].
    apply Hnot. apply in_map_iff. now exists (k', p1).
Qed.

Lemma collectHits_names (hits : list SearchHit) (m : list (string * Package)) :
  List.NoDup (map fst m) ->
  (forall k p, In (k, p) m -> k = pkg_name p /\ includes k "starlight" = true) ->
  List.NoDup (map fst (collectHits hits m)) /\
  (forall k p, In (k, p) (collectHits hits m) ->
     k = pkg_name p /\ includes k "starlight" = true).
Proof.
  unfold collectHits. revert m.
  induction hits as [|h hits IH]; intros m Hnd Hm; cbn [fold_left]; [now split|].
  apply IH.
  - destruct (_ || _); [now apply mapSet_NoDup | assumption].
  - destruct (includes (h_name h) "starlight" || startsWith (h_name h) "@astrojs/starlight")
      eqn:E; [|assumption].
    intros k p Hin. apply mapSet_In in Hin as [[= <- <-] | Hin]; [|now apply Hm].
    split; [reflexivity|].
    apply orb_true_iff in E as [E | E]; [assumption|].
    now apply (prefix_app_includes "@astrojs/" "starlight").
Qed.

(** X11: the packages [fetchSupplementaryNPM] returns have pairwise
    different names, and every name contains "starlight": a package found by
    both searches is kept once, and the test on the scope
    [@astrojs/starlight] admits nothing that the test on "starlight" does
    not. *)
Theorem fetchSupplementaryNPM_names (st st' : State) (packages : list Package) :
  fetchSupplementaryNPM st = (Ok packages, st') ->
  List.NoDup (map pkg_name packages) /\
  forall p, In p packages -> includes (pkg_name p) "starlight" = true.
Proof.
  unfold fetchSupplementaryNPM. intros H.
  apply bind_Ok in H as (hits1 & st1 & _ & H).
  apply bind_Ok in H as (hits2 & st2 & _ & [= <- _]).
  destruct (collectHits_names hits1 []) as [Hnd1 Hm1];
    [constructor | intros k p [] |].
  destruct (collectHits_names hits2 _ Hnd1 Hm1) as [Hnd Hm].
  set (m := collectHits hits2 (collectHits hits1 [])) in Hnd, Hm |- *.
  assert (Hnames : map pkg_name (map snd m) = map fst m).
  { rewrite map_map. apply map_ext_in. intros [k p] Hin.
    cbn. symmetry. now apply (Hm k p). }
  split; [now rewrite Hnames|].
  intros p Hp. apply in_map_iff in Hp as ([k p'] & Hk & Hin). cbn in Hk. subst p'.
  destruct (Hm k p Hin) as [-> Hinc]. assumption.
Qed.

Lemma filterLoop_runs (official : list Item) (packages : list Package) (st : State) :
  exists kept st',
    filterLoop official packages st = (Ok kept, st') /\
    kept `sublist_of` packages /\
    forall p, In p kept -> isRelevant p = true /\ truthy (pkg_homepage p) = true.
Proof.
  revert st. induction packages as [|pkg rest IH]; intros st; cbn [filterLoop].
  - exists [], st. split; [reflexivity|]. split; [apply sublist_nil | intros p []].
  - assert (Hskip : forall st0, exists kept st',
              filterLoop official rest st0 = (Ok kept, st') /\
              kept `sublist_of` pkg :: rest /\
              forall p, In p kept -> isRelevant p = true /\ truthy (pkg_homepage p) = true).
    { intros st0. destruct (IH st0) as (kept & st' & E & Hsub & Hk).
      exists kept, st'. split; [assumption|]. split; [now apply sublist_cons | exact Hk]. }
    destruct (existsb _ official); [apply Hskip|].
    destruct (isRelevant pkg) eqn:Hrel; cbn [negb]; [|apply Hskip].
    destruct (validateUrl_runs (pkg_homepage pkg) st) as (b & st1 & E & _ & _).
    rewrite (bind_step _ _ _ _ _ E).
    destruct b; cbn [negb]; [|apply Hskip].
    destruct (IH st1) as (kept & st' & E' & Hsub & Hk).
    rewrite (bind_step _ _ _ _ _ E').
    exists (pkg :: kept), st'. split; [reflexivity|]. split; [now apply sublist_skip|].
    intros p [<- | Hp]; [|now apply Hk].
    split; [assumption | eapply validateUrl_true, E].
Qed.

(** X12: [filterSupplementaryPackages] never throws; the packages it keeps
    are packages of its input in their original order, and each of them
    passes the relevance rules and has a non-empty home page. *)
Theorem filterSupplementaryPackages_keeps (packages : list Package) (st : State) :
  exists kept st',
    filterSupplementaryPackages packages st = (Ok kept, st') /\
    officialData st' = officialData st /\
    kept `sublist_of` packages /\
    forall p, In p kept -> isRelevant p = true /\ truthy (pkg_homepage p) = true.
Proof.
  unfold filterSupplementaryPackages, bind, get.
  destruct (filterLoop_runs (allOfficialItems (officialData st)) packages st)
    as (kept & st' & E & Hsub & Hk).
  exists kept, st'. rewrite E. repeat split; try assumption; try (now apply Hk).
  now apply (filterLoop_kept _ _ _ _ _ E).
Qed.

(** ** Further properties of the categorisation and of the merge *)

Lemma push_perm (c c' : Categorized) (i : Item) :
  c' = pushPlugin c i \/ c' = pushTheme c i \/ c' = pushTool c i ->
  Permutation (allCategorized c') (allCategorized c ++ [i]).
Proof.
  unfold allCategorized.
  intros [-> | [-> | ->]]; cbn [c_plugins c_themes c_tools pushPlugin pushTheme pushTool].
  - rewrite <- !app_assoc. apply Permutation_app_head.
    rewrite (app_assoc (c_themes c)). apply (Permutation_app_comm [i]).
  - rewrite <- !app_assoc. do 2 apply Permutation_app_head.
    apply (Permutation_app_comm [i]).
  - now rewrite <- !app_assoc.
Qed.

Lemma fallback_perm (packages : list Package) (acc : Categorized) :
  Permutation (allCategorized (fold_left fallbackStep packages acc))
              (allCategorized acc ++ map pkgEntry packages).
Proof.
  revert acc. induction packages as [|p l IH]; intros acc; cbn [fold_left map].
  - now rewrite app_nil_r.
  - rewrite IH. rewrite (push_perm acc (fallbackStep acc p) (pkgEntry p)).
    + now rewrite <- app_assoc.
    + rewrite fallbackStep_category.
      destruct (heuristicCategory p);
        first [now left | right; now left | right; now right].
Qed.

Lemma labelLoop_perm (labels : nat -> Label) (packages : list Package) :
  forall i acc c,
    labelLoop labels i packages acc = Some c ->
    Permutation (allCategorized c) (allCategorized acc ++ map pkgEntry packages).
Proof.
  induction packages as [|p l IH]; intros i acc c; cbn [labelLoop map].
  - intros [= <-]. now rewrite app_nil_r.
  - assert (Hstep : forall acc' c0,
              (acc' = pushPlugin acc (pkgEntry p) \/ acc' = pushTheme acc (pkgEntry p)
               \/ acc' = pushTool acc (pkgEntry p)) ->
              labelLoop labels (S i) l acc' = Some c0 ->
              Permutation (allCategorized c0)
                          (allCategorized acc ++ pkgEntry p :: map pkgEntry l)).
    { intros acc' c0 Hacc' H. rewrite (IH _ _ _ H).
      rewrite (push_perm acc acc' (pkgEntry p) Hacc').
      now rewrite <- app_assoc. }
    destruct (labelIncludes (labels i) "theme") as [[|]|]; [| |discriminate].
    + apply Hstep. right; now left.
    + destruct (labelIncludes (labels i) "tool") as [[|]|]; [| |discriminate];
        apply Hstep; [right; now right | now left].
Qed.

(** X13: [categorizeSupplementary] never throws, whatever the service
    answers, and it neither drops nor duplicates a package: the plugins,
    themes and tools it returns are, together, the entries of the packages
    it was given. *)
Theorem categorizeSupplementary_partition (packages : list Package) (st : State) :
  exists c st',
    categorizeSupplementary packages st = (Ok c, st') /\
    officialData st' = officialData st /\
    Permutation (allCategorized c) (map pkgEntry packages).
Proof.
  assert (Hfb : Permutation (allCategorized (fallbackCategorization packages))
                            (map pkgEntry packages)).
  { unfold fallbackCategorization. now rewrite fallback_perm. }
  assert (Hrun : exists c st',
            categorizeSupplementary packages st = (Ok c, st') /\
            Permutation (allCategorized c) (map pkgEntry packages)).
  { destruct packages as [|p0 l].
    - exists emptyCategorized, st. split; reflexivity.
    - unfold categorizeSupplementary. set (packages := p0 :: l) in Hfb |- *.
      unfold tryCatch.
      destruct (bind _ _ st) as [[c|] st1] eqn:E.
      + exists c, st1. split; [reflexivity|].
        apply bind_Ok in E as (text & st2 & _ & E).
        destruct (firstObject text) as [js|]; [|now injection E as <- _].
        destruct (jsonParse js) as [labels|]; [|discriminate].
        destruct (labelLoop labels 0 packages emptyCategorized) eqn:El; [|discriminate].
        injection E as <- _. now apply labelLoop_perm in El.
      + exists (fallbackCategorization packages), st1. now split. }
  destruct Hrun as (c & st' & E & Hp). exists c, st'.
  split; [exact E|]. split; [|exact Hp].
  eapply keepsData_categorizeSupplementary, E.
Qed.

(** X14: without a token [categorizeSupplementary] sends no request: it
    answers with the fallback categorisation and leaves the state as it
    was. *)
Theorem categorizeSupplementary_no_token (packages : list Package) (st : State) :
  truthy GITHUB_TOKEN = false ->
  categorizeSupplementary packages st = (Ok (fallbackCategorization packages), st).
Proof.
  intros Htok. destruct packages as [|p0 l]; [reflexivity|].
  unfold categorizeSupplementary, tryCatch, bind, callGitHubModels.
  now rewrite Htok.
Qed.

(** X15: the showcase sites are appended in the order they come, after the
    sites already there, and a site is appended only when it duplicates
    neither a site already there nor a site appended before it. *)
Theorem mergeShowcases_appends (astro existing : list Item) :
  exists added,
    mergeShowcases astro existing = (existing ++ added)%list /\
    added `sublist_of` astro /\
    forall pre x post, added = (pre ++ x :: post)%list ->
      forall y, In y (existing ++ pre)%list -> isDuplicate x y = false.
Proof.
  unfold mergeShowcases. revert existing.
  induction astro as [|site astro IH]; intros acc; cbn [fold_left].
  - exists []. split; [now rewrite app_nil_r|]. split; [apply sublist_nil|].
    intros pre x post H. destruct pre; discriminate.
  - destruct (existsb (fun ex => isDuplicate site ex) acc) eqn:E; cbn [negb].
    + destruct (IH acc) as (added & -> & Hsub & Hpair).
      exists added. split; [reflexivity|]. split; [now apply sublist_cons | exact Hpair].
    + destruct (IH (acc ++ [site])%list) as (added & -> & Hsub & Hpair).
      exists (site :: added). split; [now rewrite <- app_assoc|].
      split; [now apply sublist_skip|].
      intros pre x post H y Hy. destruct pre as [|s pre].
      * injection H as <- _. rewrite app_nil_r in Hy.
        destruct (isDuplicate site y) eqn:D; [|reflexivity].
        assert (existsb (fun ex => isDuplicate site ex) acc = true); [|congruence].
        apply existsb_exists. eauto.
      * injection H as <- H. apply (Hpair pre x post H).
        now rewrite <- app_assoc.
Qed.

Lemma collectAllData_shape (st st' : State) :
  collectAllData st = (Ok tt, st') ->
  exists st1 astro cat,
    fetchOfficialSources st = (Ok tt, st1) /\
    let d := officialData st1 in
    officialData st' =
    {| plugins := sortItems (plugins d ++ c_plugins cat);
       themes := sortItems
         (themes d ++
          List.filter (fun theme =>
                         negb (existsb (fun existing => matchesTheme theme existing) (themes d)))
                      (c_themes cat));
       tools := sortItems (tools d ++ c_tools cat);
       videos := sortItems (videos d);
       articles := sortItems (articles d);
       showcases := sortItems (mergeShowcases astro (showcases d)) |}.
Proof.
  unfold collectAllData. intros H.
  apply bind_Ok in H as ([] & st1 & E1 & H).
  apply bind_Ok in H as (astro & st2 & E2 & H).
  pose proof (keepsData_fetchAstroShowcase _ _ _ E2) as D2.
  apply bind_Ok in H as (s2 & st2' & [= <- <-] & H).
  rewrite D2 in H.
  apply bind_Ok in H as ([] & st3 & E3 & H).
  rewrite setOfficialData_run in E3. injection E3 as <-.
  apply bind_Ok in H as (npm & st4 & E4 & H).
  pose proof (keepsData_fetchSupplementaryNPM _ _ _ E4) as D4. cbn in D4.
  apply bind_Ok in H as (filtered & st5 & E5 & H).
  unfold filterSupplementaryPackages, bind, get in E5.
  apply filterLoop_kept in E5 as [D5 _]. rewrite D4 in D5.
  apply bind_Ok in H as (cat & st6 & E6 & H).
  pose proof (keepsData_categorizeSupplementary _ _ _ _ E6) as D6. rewrite D5 in D6.
  apply bind_Ok in H as (s6 & st6' & [= <- <-] & H).
  rewrite D6 in H. rewrite setOfficialData_run in H. injection H as <-.
  exists st1, astro, cat. split; [assumption | reflexivity].
Qed.

(** X16: a run that completes loses no official entry: every entry fetched
    from an official page is still in its category at the end, and the
    videos and the articles are exactly the official ones, rearranged by
    the sort. *)
Theorem collectAllData_keeps_official (st st' : State) :
  collectAllData st = (Ok tt, st') ->
  exists st1,
    fetchOfficialSources st = (Ok tt, st1) /\
    (forall (c : Category) (x : Item),
       In x (itemsOf c (officialData st1)) -> In x (itemsOf c (officialData st'))) /\
    Permutation (videos (officialData st')) (videos (officialData st1)) /\
    Permutation (articles (officialData st')) (articles (officialData st1)).
Proof.
  intros H. apply collectAllData_shape in H as (st1 & astro & cat & E1 & Hd).
  exists st1. split; [assumption|]. cbv zeta in Hd. rewrite Hd.
  cbn [videos articles]. split; [|split; apply sortItems_perm].
  intros c x Hx.
  destruct c; cbn [itemsOf plugins themes tools videos articles showcases];
    apply sortItems_In; try assumption; try (apply in_or_app; now left).
  now apply mergeShowcases_keeps.
Qed.

(** X21: [fetchOfficialSources] requests the four official pages, in the
    order plugins, themes, community content, showcases, whether or not one
    of the requests fails, and sends nothing else; when it succeeds the
    tools are empty. *)
Theorem fetchOfficialSources_requests (st : State) :
  exists r st',
    fetchOfficialSources st = (r, st') /\
    requests st' = (requests st ++
                    [mkRequest GET SOURCES_plugins None "";
                     mkRequest GET SOURCES_themes None "";
                     mkRequest GET SOURCES_community None "";
                     mkRequest GET SOURCES_showcases None ""])%list /\
    (r = Ok tt -> tools (officialData st') = []).
Proof.
  unfold fetchOfficialSources.
  destruct (page_settles SOURCES_plugins parseLinkCard st) as (r1 & st1 & E1 & Q1 & _).
  rewrite (bind_step _ _ _ _ _ E1).
  destruct (page_settles SOURCES_themes parseThemeGrid st1) as (r2 & st2 & E2 & Q2 & _).
  rewrite (bind_step _ _ _ _ _ E2).
  destruct (page_settles SOURCES_community
              (fun c => (parseLinkCard c, parseYouTubeGrid c)) st2)
    as (r3 & st3 & E3 & Q3 & _).
  rewrite (bind_step _ _ _ _ _ E3).
  destruct (page_settles SOURCES_showcases parseCardComponent st3)
    as (r4 & st4 & E4 & Q4 & _).
  rewrite (bind_step _ _ _ _ _ E4).
  assert (Q : requests st4 = (requests st ++
                    [mkRequest GET SOURCES_plugins None "";
                     mkRequest GET SOURCES_themes None "";
                     mkRequest GET SOURCES_community None "";
                     mkRequest GET SOURCES_showcases None ""])%list).
  { rewrite Q4, Q3, Q2, Q1. now rewrite <- !app_assoc. }
  destruct r1 as [pl|]; [|eexists _, _; repeat split; [exact Q | discriminate]].
  destruct r2 as [th|]; [|eexists _, _; repeat split; [exact Q | discriminate]].
  destruct r3 as [cd|]; [|eexists _, _; repeat split; [exact Q | discriminate]].
  destruct r4 as [sh|]; [|eexists _, _; repeat split; [exact Q | discriminate]].
  eexists _, _. split; [reflexivity|]. split; [exact Q | reflexivity].
Qed.

(** ** Failure of an origin, and what a completed run guarantees *)

Lemma eta_officialData (d : OfficialData) :
  {| plugins := plugins d; themes := themes d; tools := tools d;
     videos := videos d; articles := articles d; showcases := showcases d |} = d.
Proof. now destruct d. Qed.

Lemma filterSupplementaryPackages_runs (packages : list Package) (st : State) :
  exists kept st',
    filterSupplementaryPackages packages st = (Ok kept, st') /\
    officialData st' = officialData st.
Proof.
  unfold filterSupplementaryPackages, bind, get.
  destruct (filterLoop_runs (allOfficialItems (officialData st)) packages st)
    as (kept & st' & E & _).
  exists kept, st'. rewrite E. split; [reflexivity|].
  now apply (filterLoop_kept _ _ _ _ _ E).
Qed.

Lemma categorizeSupplementary_runs (packages : list Package) (st : State) :
  exists c st',
    categorizeSupplementary packages st = (Ok c, st') /\
    officialData st' = officialData st.
Proof.
  assert (H : exists c st', categorizeSupplementary packages st = (Ok c, st')).
  { destruct packages as [|p l]; [eexists _, _; reflexivity|].
    unfold categorizeSupplementary. apply tryCatch_ret_runs. }
  destruct H as (c & st' & E). exists c, st'. split; [exact E|].
  eapply keepsData_categorizeSupplementary, E.
Qed.

(** Once the official pages and the registry have answered, nothing else
    stops [collectAllData]: the showcase stage, the filter and the
    categorisation never throw. *)
Lemma collectAllData_runs (st st1 st2 st3 : State) (astro : list Item)
    (packages : list Package) :
  fetchOfficialSources st = (Ok tt, st1) ->
  fetchAstroShowcase st1 = (Ok astro, st2) ->
  fetchSupplementaryNPM
    {| officialData :=
         {| plugins := plugins (officialData st1); themes := themes (officialData st1);
            tools := tools (officialData st1); videos := videos (officialData st1);
            articles := articles (officialData st1);
            showcases := mergeShowcases astro (showcases (officialData st1)) |};
       processedUrls := processedUrls st2;
       requests := requests st2 |} = (Ok packages, st3) ->
  exists st',
    collectAllData st = (Ok tt, st') /\
    showcases (officialData st')
    = sortItems (mergeShowcases astro (showcases (officialData st1))).
Proof.
  intros E1 E2 E4. unfold collectAllData.
  rewrite (bind_step _ _ _ _ _ E1), (bind_step _ _ _ _ _ E2).
  pose proof (keepsData_fetchAstroShowcase _ _ _ E2) as D2.
  rewrite (bind_step get _ st2 st2 st2 eq_refl). rewrite D2.
  rewrite (bind_step _ _ _ _ _ (setOfficialData_run _ _)).
  rewrite (bind_step _ _ _ _ _ E4).
  pose proof (keepsData_fetchSupplementaryNPM _ _ _ E4) as D4. cbn [officialData] in D4.
  destruct (filterSupplementaryPackages_runs packages st3) as (kept & st5 & E5 & D5).
  rewrite (bind_step _ _ _ _ _ E5).
  destruct (categorizeSupplementary_runs kept st5) as (cat & st6 & E6 & D6).
  rewrite (bind_step _ _ _ _ _ E6).
  rewrite (bind_step get _ st6 st6 st6 eq_refl).
  rewrite setOfficialData_run. eexists. split; [reflexivity|].
  cbn [officialData showcases]. now rewrite D6, D5, D4.
Qed.

(** C4 (as amended): when the request to the Astro showcase listing fails,
    with a network error or an HTTP error, [fetchAstroShowcase] returns no
    site and the run goes on: once the official pages and the registry have
    answered, [collectAllData] completes, the showcases are the official
    ones, sorted, and [run] goes on to the update of the README.  When the
    request to an official page or to the registry search fails, the error
    propagates: [collectAllData] throws and [run] ends with exit status 1. *)
Theorem origin_failure (o : Origin) (st : State) :
  (forall sent, fetchFails (net sent (originRequest o)) = true) ->
  match o with
  | AstroShowcase =>
      fetchAstroShowcase st = (Ok [], logRequest (originRequest AstroShowcase) st) /\
      forall (st1 st2 : State) (packages : list Package),
        fetchOfficialSources st = (Ok tt, st1) ->
        fetchSupplementaryNPM (logRequest (originRequest AstroShowcase) st1)
        = (Ok packages, st2) ->
        exists st',
          collectAllData st = (Ok tt, st') /\
          showcases (officialData st') = sortItems (showcases (officialData st1)) /\
          run st = match updateReadme (officialData st') st' with
                   | (Ok _, st'') => (Completed, st'')
                   | (Throw, st'') => (Exit1, st'')
                   end
  | _ =>
      exists st', collectAllData st = (Throw, st') /\ run st = (Exit1, st')
  end.
Proof.
  intros Hfail.
  assert (Hoff : (o = OfficialPlugins \/ o = OfficialThemes \/ o = OfficialCommunity
                  \/ o = OfficialShowcases) ->
                 exists st', collectAllData st = (Throw, st') /\ run st = (Exit1, st')).
  { intros Ho. destruct (fetchOfficialSources_fails st o Ho Hfail) as (st' & E).
    assert (E' : collectAllData st = (Throw, st'))
      by (unfold collectAllData; now apply bind_Throw).
    exists st'. split; [assumption | now apply run_Throw]. }
  assert (Hnpm : (o = NpmSearch1 \/ o = NpmSearch2) ->
                 exists st', collectAllData st = (Throw, st') /\ run st = (Exit1, st')).
  { intros Ho. destruct (collectAllData_npm_fails st o Ho Hfail) as (st' & E).
    exists st'. split; [assumption | now apply run_Throw]. }
  destruct o; try (apply Hoff; tauto); try (apply Hnpm; tauto).
  split; [now apply fetchAstroShowcase_fails|].
  intros st1 st2 packages E1 E4.
  pose proof (fetchAstroShowcase_fails st1 Hfail) as E2.
  destruct (collectAllData_runs st st1 _ st2 [] packages E1 E2) as (st' & E & Hs).
  { cbn [mergeShowcases fold_left]. rewrite eta_officialData. exact E4. }
  exists st'. split; [exact E|]. split; [exact Hs|].
  unfold run. rewrite (bind_step _ _ _ _ _ E).
  rewrite (bind_step get _ st' st' st' eq_refl). reflexivity.
Qed.

(** *** Entries without a [homepage] *)

(** The entries of the official pages, the showcase sites and the entries
    made from registry packages are all built as [{ title, url, description }]:
    for two of them [isDuplicate] reads the same field on both sides. *)
Lemma isDuplicate_swap (a b : Item) :
  homepage a = None -> homepage b = None -> isDuplicate a b = isDuplicate b a.
Proof.
  intros Ha Hb. unfold isDuplicate.
  destruct (newItem_address a) as [-> ->]; [rewrite Ha; apply orb_true_r|].
  destruct (newItem_address b) as [-> ->]; [rewrite Hb; apply orb_true_r|].
  rewrite (String.eqb_sym (normalizeUrl (orStr (url b) ""))).
  rewrite (andb_comm (negb (isEmpty (normalizeUrl (orStr (url a) ""))))).
  destruct (_ && _ && _); [reflexivity|].
  destruct (getRepo (url a)), (getRepo (url b)); try reflexivity.
  apply String.eqb_sym.
Qed.

Lemma fetchOfficialSources_entries (st st1 : State) :
  fetchOfficialSources st = (Ok tt, st1) ->
  forall c y, In y (itemsOf c (officialData st1)) -> homepage y = None.
Proof.
  unfold fetchOfficialSources. intros H.
  do 8 (apply bind_Ok in H as (? & ? & _ & H)).
  rewrite setOfficialData_run in H. injection H as <-.
  intros c y Hy.
  destruct c; cbn [itemsOf officialData plugins themes tools videos articles showcases] in Hy;
    try (apply in_map_iff in Hy as (l & <- & _); reflexivity).
  destruct Hy.
Qed.

Lemma fetchAstroShowcase_entries (st st' : State) (sites : list Item) :
  fetchAstroShowcase st = (Ok sites, st') ->
  forall site, In site sites -> homepage site = None.
Proof.
  unfold fetchAstroShowcase, tryCatch.
  destruct (bind _ _ st) as [[sites'|] st1] eqn:Eb.
  - intros [= <- <-]. apply bind_Ok in Eb as (response & st2 & _ & Eb).
    destruct (negb (ok response)); [injection Eb as <- _; intros site []|].
    destruct (listing (body response)) as [files|]; [|discriminate].
    apply bind_Ok in Eb as (downloads & st3 & _ & Eb).
    apply bind_Ok in Eb as (results & st4 & Hres & [= <- _]).
    intros site Hsite. apply somes_In in Hsite.
    assert (HF : Forall (fun r => forall s, r = Some s -> homepage s = None) results).
    { eapply (mapM_Forall showcaseSite); [|exact Hres].
      intros a s0 r s1 Hr s ->.
      revert Hr. unfold showcaseSite, tryCatch.
      destruct (bind _ _ s0) as [[[x|]|] s2] eqn:Ex; try discriminate.
      intros [= <- _]. apply bind_Ok in Ex as (res & s3 & _ & Ex).
      destruct (yamlLoad (body res)) as [data|]; [|discriminate].
      destruct (y_starlight data); [|discriminate].
      apply bind_Ok in Ex as (valid & s4 & _ & Ex).
      destruct (negb valid); [discriminate|]. now injection Ex as <- _. }
    rewrite List.Forall_forall in HF. now apply (HF _ Hsite).
  - intros [= <- _] site [].
Qed.

(** The sites the merge appends: none duplicates a site that was already
    there, and no two of them duplicate each other. *)
Lemma mergeShowcases_added (astro existing : list Item) :
  (forall s, In s astro -> homepage s = None) ->
  (forall s, In s existing -> homepage s = None) ->
  exists added,
    mergeShowcases astro existing = (existing ++ added)%list /\
    incl added astro /\
    (forall x y, In x added -> In y existing -> isDuplicate x y = false) /\
    ForallOrdPairs (fun x y => isDuplicate x y = false /\ isDuplicate y x = false) added.
Proof.
  unfold mergeShowcases. revert existing.
  induction astro as [|site astro IH]; intros acc Hastro Hacc; cbn [fold_left].
  - exists []. split; [now rewrite app_nil_r|]. split; [apply incl_refl|].
    split; [intros x y []|constructor].
  - assert (Hrest : forall s, In s astro -> homepage s = None)
      by (intros s Hs; apply Hastro; now right).
    destruct (existsb (fun ex => isDuplicate site ex) acc) eqn:E; cbn [negb].
    + destruct (IH acc Hrest Hacc) as (added & -> & Hsub & Hold & Hpair).
      exists added. split; [reflexivity|].
      split; [intros x Hx; right; now apply Hsub|]. now split.
    + assert (Hsite : homepage site = None) by (apply Hastro; now left).
      assert (Hacc' : forall s, In s (acc ++ [site])%list -> homepage s = None).
      { intros s Hs. apply in_app_or in Hs as [Hs | [<- | []]]; [now apply Hacc | exact Hsite]. }
      destruct (IH (acc ++ [site])%list Hrest Hacc') as (added & -> & Hsub & Hold & Hpair).
      exists (site :: added). split; [now rewrite <- app_assoc|].
      split; [intros x [<- | Hx]; [now left | right; now apply Hsub]|].
      split.
      * intros x y [<- | Hx] Hy.
        -- destruct (isDuplicate site y) eqn:D; [|reflexivity].
           assert (existsb (fun ex => isDuplicate site ex) acc = true); [|congruence].
           apply existsb_exists. eauto.
        -- apply Hold; [exact Hx | apply in_or_app; now left].
      * constructor; [|exact Hpair].
        apply List.Forall_forall. intros y Hy.
        assert (D : isDuplicate y site = false).
        { apply Hold; [exact Hy | apply in_or_app; right; now left]. }
        split; [|exact D].
        rewrite isDuplicate_swap; [exact D | exact Hsite | apply Hrest, Hsub, Hy].
Qed.

(** C2 (as amended): after [collectAllData] the entries of each category are
    the entries fetched from its official page together with the newly merged
    ones, of which the videos and the articles have none.  A newly merged
    entry and an official entry of its category are not duplicates of each
    other, in either order of the arguments of [isDuplicate]; a new theme
    moreover matches no official theme by title or by theme key; and no two
    newly merged showcase sites are duplicates of each other.  Nothing is
    said about two entries of one official page, nor about two entries that
    both come from the registry. *)
Theorem collectAllData_new_entries (st st' : State) :
  collectAllData st = (Ok tt, st') ->
  exists (st1 : State) (added : Category -> list Item),
    fetchOfficialSources st = (Ok tt, st1) /\
    (forall c, Permutation (itemsOf c (officialData st'))
                           (itemsOf c (officialData st1) ++ added c)) /\
    added Videos = [] /\ added Articles = [] /\
    (forall c x y, In x (added c) -> In y (itemsOf c (officialData st1)) ->
       isDuplicate x y = false /\ isDuplicate y x = false) /\
    (forall x y, In x (added Themes) -> In y (themes (officialData st1)) ->
       matchesTheme x y = false) /\
    ForallOrdPairs (fun x y => isDuplicate x y = false /\ isDuplicate y x = false)
                   (added Showcases).
Proof using Type.
  unfold collectAllData. intros H.
  apply bind_Ok in H as ([] & st1 & E1 & H).
  pose proof (fetchOfficialSources_entries _ _ E1) as Hoff.
  apply bind_Ok in H as (astro & st2 & E2 & H).
  pose proof (keepsData_fetchAstroShowcase _ _ _ E2) as D2.
  pose proof (fetchAstroShowcase_entries _ _ _ E2) as Hastro.
  apply bind_Ok in H as (s2 & st2' & [= <- <-] & H).
  rewrite D2 in H. set (d := officialData st1) in H, Hoff |- *.
  destruct (mergeShowcases_added astro (showcases d) Hastro (Hoff Showcases))
    as (sites & Hmerge & Hsites & Hold & Hpair).
  apply bind_Ok in H as ([] & st3 & E3 & H).
  rewrite setOfficialData_run in E3. injection E3 as <-.
  set (d' := {| plugins := plugins d; themes := themes d; tools := tools d;
                videos := videos d; articles := articles d;
                showcases := mergeShowcases astro (showcases d) |}) in H.
  apply bind_Ok in H as (npm & st4 & E4 & H).
  pose proof (keepsData_fetchSupplementaryNPM _ _ _ E4) as D4. cbn in D4.
  apply bind_Ok in H as (filtered & st5 & E5 & H).
  unfold filterSupplementaryPackages, bind, get in E5. rewrite D4 in E5.
  apply filterLoop_kept in E5 as [D5 Hkept]. rewrite D4 in D5.
  apply bind_Ok in H as (cat & st6 & E6 & H).
  pose proof (keepsData_categorizeSupplementary _ _ _ _ E6) as D6. rewrite D5 in D6.
  apply categorizeSupplementary_fromPackages in E6.
  apply bind_Ok in H as (s6 & st6' & [= <- <-] & H).
  rewrite D6 in H. rewrite setOfficialData_run in H. injection H as <-.
  set (newThemes :=
         List.filter (fun theme =>
                        negb (existsb (fun existing => matchesTheme theme existing) (themes d')))
                     (c_themes cat)).
  (* an entry made from a registry package and an official item are not
     duplicates of each other *)
  assert (Hnew : forall c x y,
             In x (c_plugins cat) \/ In x (c_themes cat) \/ In x (c_tools cat) ->
             In y (itemsOf c d) ->
             isDuplicate x y = false /\ isDuplicate y x = false).
  { intros c x y Hx Hy. destruct (E6 x Hx) as (p & Hp & ->).
    assert (D : isDuplicate (pkgEntry p) y = false).
    { rewrite isDuplicate_pkgEntry. apply (Hkept p Hp).
      unfold allOfficialItems. cbn [plugins themes tools videos articles showcases d'].
      destruct c; cbn [itemsOf] in Hy; rewrite !in_app_iff;
        [now left | right; now left | right; right; now left
        | right; right; right; now left | right; right; right; right; now left|].
      right; right; right; right; right. now apply mergeShowcases_keeps. }
    split; [exact D|].
    rewrite isDuplicate_swap; [exact D | exact (Hoff c y Hy) | reflexivity]. }
  exists st1,
    (fun c => match c with
              | Plugins => c_plugins cat
              | Themes => newThemes
              | Tools => c_tools cat
              | Showcases => sites
              | Videos | Articles => []
              end).
  split; [exact E1|]. split.
  { intros c.
    destruct c; cbn [itemsOf officialData plugins themes tools videos articles showcases d'];
      rewrite sortItems_perm, ?app_nil_r, ?Hmerge; reflexivity. }
  split; [reflexivity|]. split; [reflexivity|]. split.
  { intros c x y Hx Hy. destruct c.
    - apply (Hnew Plugins); [now left | exact Hy].
    - apply filter_In in Hx as [Hx _].
      apply (Hnew Themes); [right; now left | exact Hy].
    - apply (Hnew Tools); [right; now right | exact Hy].
    - destruct Hx.
    - destruct Hx.
    - assert (D : isDuplicate x y = false) by now apply Hold.
      split; [exact D|].
      rewrite isDuplicate_swap;
        [exact D | exact (Hoff Showcases y Hy) | apply Hastro, Hsites, Hx]. }
  split; [|exact Hpair].
  intros x y Hx Hy. apply filter_In in Hx as [_ Hm]. apply negb_true_iff in Hm.
  destruct (matchesTheme x y) eqn:M; [|reflexivity].
  assert (Hex : existsb (fun existing => matchesTheme x existing) (themes d') = true).
  { apply existsb_exists. exists y. now split. }
  rewrite Hex in Hm. discriminate Hm.
Qed.

End Updater.

(** ** Properties of the README update *)

Module ReadmeFacts.

Import Readme.

Lemma append_assoc (a b c : string) : (a ++ b) ++ c = a ++ b ++ c.
Proof.
  induction a as [|x a IH]; [reflexivity|]. rewrite !append_cons. now rewrite IH.
Qed.

Lemma length_append (a b : string) :
  String.length (a ++ b) = String.length a + String.length b.
Proof.
  induction a as [|x a IH]; [reflexivity|]. rewrite append_cons. cbn. now rewrite IH.
Qed.

Lemma prefix_nil (s : string) : String.prefix "" s = true.
Proof. destruct s; reflexivity. Qed.

Lemma prefix_cons (a b : ascii) (p s : string) :
  String.prefix (String a p) (String b s)
  = if ascii_dec a b then String.prefix p s else false.
Proof. reflexivity. Qed.

Lemma prefix_length (pat s : string) :
  String.prefix pat s = true -> String.length pat <= String.length s.
Proof.
  revert s. induction pat as [|a p IH]; intros s H; cbn; [lia|].
  destruct s as [|b s]; [discriminate|]. rewrite prefix_cons in H.
  destruct (ascii_dec a b); [|discriminate]. apply IH in H. cbn. lia.
Qed.

Lemma prefix_app_long (pat x t : string) :
  String.length pat <= String.length x ->
  String.prefix pat (x ++ t) = String.prefix pat x.
Proof.
  revert x. induction pat as [|a p IH]; intros x H.
  - now rewrite !prefix_nil.
  - destruct x as [|b x]; [cbn in H; lia|].
    rewrite append_cons, !prefix_cons.
    destruct (ascii_dec a b); [|reflexivity]. apply IH. cbn in H. lia.
Qed.

Lemma prefix_take (pat s : string) (n : nat) :
  String.length pat <= n -> String.prefix pat (take n s) = String.prefix pat s.
Proof.
  revert s n. induction pat as [|a p IH]; intros s n H.
  - now rewrite !prefix_nil.
  - destruct n as [|n]; [cbn in H; lia|].
    destruct s as [|b s]; [reflexivity|]. cbn [take]. rewrite !prefix_cons.
    destruct (ascii_dec a b); [|reflexivity]. apply IH. cbn in H. lia.
Qed.

Lemma prefix_of_take (pat s : string) (n : nat) :
  String.prefix pat (take n s) = true -> String.prefix pat s = true.
Proof.
  revert s n. induction pat as [|a p IH]; intros s n H; [apply prefix_nil|].
  destruct n as [|n]; [destruct s; discriminate|].
  destruct s as [|b s]; [discriminate|]. cbn [take] in H. rewrite prefix_cons in *.
  destruct (ascii_dec a b); [|discriminate]. eapply IH, H.
Qed.

Lemma take_length (s : string) (n : nat) :
  n <= String.length s -> String.length (take n s) = n.
Proof.
  revert s. induction n as [|n IH]; intros s H; [destruct s; reflexivity|].
  destruct s as [|c s]; [cbn in H; lia|]. cbn. rewrite IH; [reflexivity|].
  cbn in H. lia.
Qed.

Lemma take_app (x y : string) : take (String.length x) (x ++ y) = x.
Proof.
  induction x as [|c x IH]; [destruct y; reflexivity|].
  rewrite append_cons. cbn. now rewrite IH.
Qed.

Lemma drop_app (x y : string) (n : nat) :
  drop (String.length x + n) (x ++ y) = drop n y.
Proof. induction x as [|c x IH]; [reflexivity|]. rewrite append_cons. cbn. apply IH. Qed.

Lemma indexOf_here (s pat : string) :
  String.prefix pat s = true -> indexOf s pat = Some 0.
Proof. intros H. destruct s; cbn [indexOf]; now rewrite H. Qed.

(** The first occurrence of a pattern lies within the string. *)
Lemma indexOf_bound (s pat : string) (i : nat) :
  indexOf s pat = Some i ->
  i + String.length pat <= String.length s /\ String.prefix pat (drop i s) = true.
Proof.
  revert i. induction s as [|c s IH]; intros i; cbn [indexOf].
  - destruct (String.prefix pat "") eqn:E; [|discriminate].
    intros [= <-]. split; [apply prefix_length in E; cbn in *; lia | exact E].
  - destruct (String.prefix pat (String c s)) eqn:E.
    + intros [= <-]. split; [apply prefix_length in E; cbn in *; lia | exact E].
    + destruct (indexOf s pat) as [j|]; [|discriminate].
      intros [= <-]. destruct (IH j eq_refl) as [H1 H2].
      split; [cbn; lia | exact H2].
Qed.

(** The first occurrence is still the first when the text behind it is
    replaced. *)
Lemma indexOf_take_app (s pat t : string) (i : nat) :
  indexOf s pat = Some i ->
  indexOf (take (i + String.length pat) s ++ t) pat = Some i.
Proof.
  revert i. induction s as [|c s IH]; intros i; cbn [indexOf].
  - destruct (String.prefix pat "") eqn:E; [|discriminate].
    intros [= <-]. destruct pat; [|discriminate]. cbn [Nat.add String.length take].
    rewrite append_nil. apply indexOf_here, prefix_nil.
  - destruct (String.prefix pat (String c s)) eqn:E.
    + intros [= <-]. cbn [Nat.add].
      assert (Hp : String.prefix pat (take (String.length pat) (String c s) ++ t) = true).
      { rewrite prefix_app_long.
        - now rewrite prefix_take.
        - rewrite take_length; [lia | now apply prefix_length]. }
      destruct (take (String.length pat) (String c s) ++ t); cbn [indexOf]; now rewrite Hp.
    + destruct (indexOf s pat) as [j|] eqn:Ej; [|discriminate].
      intros [= <-]. cbn [Nat.add take]. rewrite append_cons. cbn [indexOf].
      destruct (indexOf_bound _ _ _ Ej) as [Hb _].
      assert (Hp : String.prefix pat (String c (take (j + String.length pat) s ++ t)) = false).
      { change (String c (take (j + String.length pat) s ++ t))
          with (take (S (j + String.length pat)) (String c s) ++ t).
        rewrite prefix_app_long.
        - rewrite prefix_take; [exact E | lia].
        - rewrite take_length; [lia | cbn; lia]. }
      rewrite Hp. now rewrite (IH j eq_refl).
Qed.

(** Before its first occurrence a pattern does not occur. *)
Lemma includes_take (s pat : string) (i n : nat) :
  pat <> "" -> indexOf s pat = Some i -> n <= i ->
  includes (take n s) pat = false.
Proof.
  intros Hpat. revert i n.
  assert (Hnil : includes "" pat = false).
  { cbn. destruct pat; [congruence | reflexivity]. }
  induction s as [|c s IH]; intros i n; cbn [indexOf].
  - intros _ _. destruct n; exact Hnil.
  - destruct (String.prefix pat (String c s)) eqn:E.
    + intros [= <-] Hn. assert (n = 0) as -> by lia. exact Hnil.
    + destruct (indexOf s pat) as [j|] eqn:Ej; [|discriminate].
      intros [= <-] Hn. destruct n as [|n]; [exact Hnil|].
      cbn [take includes]. rewrite (IH j n eq_refl) by lia.
      rewrite orb_false_r.
      destruct (String.prefix pat (String c (take n s))) eqn:E'; [|reflexivity].
      apply (prefix_of_take pat (String c s) (S n)) in E'. congruence.
Qed.

Lemma prefix_before (pat x y : string) (c : ascii) :
  (forall a, In a (list_ascii_of_string pat) -> a <> c) ->
  String.prefix pat (x ++ String c y) = true -> String.prefix pat x = true.
Proof.
  revert x. induction pat as [|a p IH]; intros x Hc H; [apply prefix_nil|].
  destruct x as [|b x].
  - rewrite append_nil, prefix_cons in H.
    destruct (ascii_dec a c) as [->|]; [|discriminate].
    exfalso. apply (Hc c); [now left | reflexivity].
  - rewrite append_cons in H. rewrite prefix_cons in *.
    destruct (ascii_dec a b); [|discriminate].
    apply IH; [|exact H]. intros a' Ha'. apply Hc. now right.
Qed.

(** A pattern without the character [c] that does not occur in [x] is first
    found in [x c y] where it is first found in [y]. *)
Lemma indexOf_skip (pat x y : string) (c : ascii) :
  pat <> "" ->
  (forall a, In a (list_ascii_of_string pat) -> a <> c) ->
  includes x pat = false ->
  indexOf (x ++ String c y) pat
  = option_map (fun n => String.length x + 1 + n) (indexOf y pat).
Proof.
  intros Hpat Hc. induction x as [|b x IH]; intros Hx.
  - rewrite append_nil. cbn [indexOf].
    destruct (String.prefix pat (String c y)) eqn:E.
    + apply (prefix_before pat "" y c Hc) in E. destruct pat; [congruence | discriminate].
    + destruct (indexOf y pat); reflexivity.
  - cbn [includes] in Hx. apply orb_false_iff in Hx as [Hx1 Hx2].
    rewrite append_cons. cbn [indexOf].
    destruct (String.prefix pat (String b (x ++ String c y))) eqn:E.
    + apply (prefix_before pat (String b x) y c Hc) in E. congruence.
    + rewrite (IH Hx2). destruct (indexOf y pat); reflexivity.
Qed.

Lemma indexOf_skip_char (pat y : string) (c : ascii) :
  pat <> "" ->
  (forall a, In a (list_ascii_of_string pat) -> a <> c) ->
  indexOf (String c y) pat = option_map S (indexOf y pat).
Proof.
  intros Hpat Hc. change (String c y) with ("" ++ String c y).
  rewrite indexOf_skip; [reflexivity | assumption | assumption |].
  cbn. destruct pat; [congruence | reflexivity].
Qed.

Lemma endMarker_one_line (a : ascii) :
  In a (list_ascii_of_string endMarker) -> a <> ascii_of_nat 10.
Proof.
  intros Ha. cbn in Ha.
  repeat (destruct Ha as [<- | Ha]; [discriminate|]). destruct Ha.
Qed.

(** The README that a first update produces is left as it is by a second
    update with the same content, when the start marker comes before the
    end marker and the content does not contain the end marker. *)
Lemma spliceReadme_again (readme content r : string) (si ei : nat) :
  indexOf readme startMarker = Some si ->
  indexOf readme endMarker = Some ei ->
  si + String.length startMarker <= ei ->
  includes content endMarker = false ->
  spliceReadme readme content = Some r ->
  spliceReadme r content = Some r.
Proof.
  intros Hs He Hord Hc. unfold spliceReadme at 1. rewrite Hs, He. intros Hr.
  assert (Er : r = take (si + String.length startMarker) readme
                   ++ nl ++ nl ++ content ++ nl ++ nl ++ drop ei readme)
    by congruence.
  clear Hr. subst r.
  destruct (indexOf_bound _ _ _ Hs) as [Hsb _].
  destruct (indexOf_bound _ _ _ He) as [_ HeA].
  pose proof (includes_take readme endMarker ei (si + String.length startMarker)
                ltac:(discriminate) He Hord) as HBe.
  pose proof (take_length readme _ Hsb) as HB.
  pose proof (fun t => indexOf_take_app readme startMarker t si Hs) as Hstart.
  remember (take (si + String.length startMarker) readme) as B eqn:EB.
  remember (drop ei readme) as A eqn:EA.
  clear EB EA Hs He Hsb.
  unfold spliceReadme. rewrite Hstart.
  assert (Hend : indexOf (B ++ nl ++ nl ++ content ++ nl ++ nl ++ A) endMarker
                 = Some (String.length B + (2 + (String.length content + 2)))).
  { unfold nl. rewrite !append_cons, !append_nil.
    rewrite indexOf_skip; [|discriminate | exact endMarker_one_line | exact HBe].
    rewrite indexOf_skip_char; [|discriminate | exact endMarker_one_line].
    rewrite indexOf_skip; [|discriminate | exact endMarker_one_line | exact Hc].
    rewrite indexOf_skip_char; [|discriminate | exact endMarker_one_line].
    rewrite (indexOf_here A endMarker HeA). cbn [option_map]. f_equal. lia. }
  rewrite Hend. rewrite <- HB at 1. rewrite take_app, drop_app.
  unfold nl. rewrite !append_cons, !append_nil. cbn [Nat.add drop].
  rewrite (drop_app content). reflexivity.
Qed.

(** X17: updating the README twice with the same data is the same as
    updating it once, when the start marker stands before the end marker
    and the generated content does not contain the end marker. *)
Theorem updateReadme_idempotent (readme r : string) (d : OfficialData) (si ei : nat) :
  indexOf readme startMarker = Some si ->
  indexOf readme endMarker = Some ei ->
  si + String.length startMarker <= ei ->
  includes (generateMarkdown d) endMarker = false ->
  updateReadme false readme d = Ok r ->
  updateReadme false r d = Ok r.
Proof.
  intros Hs He Hord Hc. unfold updateReadme.
  destruct (spliceReadme readme (generateMarkdown d)) as [r'|] eqn:E; [|discriminate].
  intros [= <-].
  now rewrite (spliceReadme_again readme (generateMarkdown d) r' si ei Hs He Hord Hc E).
Qed.

Lemma prefix_app_self (p b : string) : String.prefix p (p ++ b) = true.
Proof.
  induction p as [|a p IH]; [apply prefix_nil|].
  rewrite append_cons, prefix_cons. now destruct (ascii_dec a a).
Qed.

Lemma includes_app_mid (a p b : string) : includes (a ++ p ++ b) p = true.
Proof.
  induction a as [|x a IH].
  - rewrite append_nil. pose proof (prefix_app_self p b) as H.
    destruct (p ++ b); cbn [includes]; now rewrite H.
  - rewrite append_cons. cbn [includes]. rewrite IH. apply orb_true_r.
Qed.

Lemma concat_In (sep : string) (l : list string) (x : string) :
  In x l -> exists a b, String.concat sep l = a ++ x ++ b.
Proof.
  induction l as [|y l IH]; [intros []|].
  intros [-> | Hx].
  - exists "". destruct l as [|z l].
    + exists "". cbn [String.concat]. now rewrite append_nil, append_empty_r.
    + exists (sep ++ String.concat sep (z :: l)). reflexivity.
  - destruct l as [|z l]; [destruct Hx|].
    destruct (IH Hx) as (a & b & E).
    exists (y ++ sep ++ a), b.
    change (String.concat sep (y :: z :: l))
      with (y ++ sep ++ String.concat sep (z :: l)).
    now rewrite E, !append_assoc.
Qed.

Lemma addSection_old (sections : list string) (h : string) (items : list Item)
    (desc x : string) :
  In x sections -> In x (addSection sections h items desc).
Proof.
  intros H. unfold addSection. destruct items; [assumption|].
  apply in_or_app. now left.
Qed.

Lemma addSection_new (sections : list string) (h : string) (items : list Item)
    (desc : string) :
  items <> [] ->
  exists rest, In ("## " ++ h ++ rest) (addSection sections h items desc).
Proof.
  intros H. unfold addSection. destruct items; [congruence|].
  eexists. apply in_or_app. right. left. reflexivity.
Qed.

(** X18: the generated text has the heading of every category that has an
    entry. *)
Theorem generateMarkdown_heading (d : OfficialData) (c : Category) :
  itemsOf c d <> [] ->
  includes (generateMarkdown d) ("## " ++ heading c) = true.
Proof.
  intros H. unfold generateMarkdown.
  match goal with
  | |- includes (String.concat _ ?secs) _ = true =>
      assert (Hin : exists rest, In ("## " ++ heading c ++ rest) secs)
  end.
  { destruct c; cbn [itemsOf heading] in H |- *.
    - destruct (addSection_new [] "Plugins & Integrations" (plugins d) "" H) as (rest & Hr).
      exists rest. now do 5 apply addSection_old.
    - edestruct (addSection_new) as (rest & Hr); [exact H|].
      exists rest. do 4 apply addSection_old. exact Hr.
    - edestruct (addSection_new) as (rest & Hr); [exact H|].
      exists rest. do 3 apply addSection_old. exact Hr.
    - edestruct (addSection_new) as (rest & Hr); [exact H|].
      exists rest. do 1 apply addSection_old. exact Hr.
    - edestruct (addSection_new) as (rest & Hr); [exact H|].
      exists rest. exact Hr.
    - edestruct (addSection_new) as (rest & Hr); [exact H|].
      exists rest. do 2 apply addSection_old. exact Hr. }
  destruct Hin as (rest & Hin).
  destruct (concat_In (nl ++ nl) _ _ Hin) as (a & b & ->).
  change ("## " ++ heading c ++ rest) with (("## " ++ heading c) ++ rest).
  rewrite (append_assoc ("## " ++ heading c)). apply includes_app_mid.
Qed.

End ReadmeFacts.

(** ** Properties of the parsers *)

Module ParserFacts.

Import Parsers.

Lemma dropPrefix_prefix (p s r : string) :
  dropPrefix p s = Some r -> String.prefix p s = true.
Proof.
  revert s. induction p as [|a p IH]; intros s H; [apply ReadmeFacts.prefix_nil|].
  destruct s as [|b s]; [discriminate|]. cbn [dropPrefix] in H.
  rewrite ReadmeFacts.prefix_cons.
  destruct (Ascii.eqb_spec a b) as [->|]; [|discriminate].
  destruct (ascii_dec b b); [now apply IH | congruence].
Qed.

Lemma span_fst_all (f : ascii -> bool) (s : string) (c : ascii) :
  In c (list_ascii_of_string (fst (span f s))) -> f c = true.
Proof.
  induction s as [|x s IH]; cbn [span]; [intros []|].
  destruct (f x) eqn:E; [|intros []].
  destruct (span f s) as [a b]. cbn [fst list_ascii_of_string In] in *.
  intros [<- | H]; [assumption | now apply IH].
Qed.

Lemma attrAt_value (name s v : string) :
  attrAt name s = Some v ->
  v <> "" /\ forall c, In c (list_ascii_of_string v) -> isQuote c = false.
Proof.
  unfold attrAt. destruct (dropPrefix (name ++ "=") s) as [[|q r]|]; try discriminate.
  destruct (isQuote q); [|discriminate].
  pose proof (span_fst_all (fun c => negb (isQuote c)) r) as Hall.
  destruct (span (fun c => negb (isQuote c)) r) as [y z]. cbn [fst] in Hall.
  destruct y as [|y0 y]; [discriminate|]. cbn [isEmpty].
  destruct z; [discriminate|]. intros [= <-]. split; [discriminate|].
  intros c Hc. apply Hall in Hc. now apply negb_true_iff in Hc.
Qed.

Lemma attr_value (name s v : string) :
  attr name s = Some v ->
  v <> "" /\ forall c, In c (list_ascii_of_string v) -> isQuote c = false.
Proof.
  induction s as [|x s IH]; cbn [attr].
  - destruct (attrAt name "") eqn:E; [|discriminate].
    intros [= <-]. eapply attrAt_value, E.
  - destruct (attrAt name (String x s)) eqn:E; [|exact IH].
    intros [= <-]. eapply attrAt_value, E.
Qed.

Lemma trim_In (s : string) (c : ascii) :
  In c (list_ascii_of_string (trim s)) -> In c (list_ascii_of_string s).
Proof. unfold trim. intros H. now apply trimStart_In, trimEnd_In. Qed.

Lemma prefix_trimEnd (p s : string) :
  (forall c, In c (list_ascii_of_string p) -> isSpace c = false) ->
  String.prefix p s = true -> String.prefix p (trimEnd s) = true.
Proof.
  revert s. induction p as [|a p IH]; intros s Hp H; [apply ReadmeFacts.prefix_nil|].
  destruct s as [|b s]; [discriminate|]. rewrite ReadmeFacts.prefix_cons in H.
  destruct (ascii_dec a b) as [<-|]; [|discriminate].
  cbn [trimEnd]. rewrite (Hp a) by now left. cbn [andb].
  rewrite ReadmeFacts.prefix_cons. destruct (ascii_dec a a); [|congruence].
  apply IH; [|assumption]. intros c Hc. apply Hp. now right.
Qed.

Lemma startsWith_http_trim (s : string) :
  startsWith s "http" = true -> startsWith (trim s) "http" = true.
Proof.
  unfold startsWith, trim. intros H.
  assert (Hs : trimStart s = s).
  { destruct s as [|b s]; [reflexivity|]. rewrite ReadmeFacts.prefix_cons in H.
    destruct (ascii_dec "h" b) as [<-|]; [reflexivity | discriminate]. }
  rewrite Hs. apply prefix_trimEnd; [|assumption].
  intros c Hc. cbn in Hc.
  repeat (destruct Hc as [<- | Hc]; [reflexivity|]). destruct Hc.
Qed.

Lemma somesOf_In {A} (l : list (option A)) (x : A) : In x (somesOf l) -> In (Some x) l.
Proof.
  induction l as [|[y|] l IH]; cbn [somesOf In]; [intros []| |].
  - intros [-> | H]; [now left | right; now apply IH].
  - intros H. right. now apply IH.
Qed.

(** X19: every link that [parseLinkCard] returns has an address that starts
    with "http", and neither its title nor its address contains a double or
    a single quote. *)
Theorem parseLinkCard_links (content : string) (l : Link) :
  In l (parseLinkCard content) ->
  startsWith (l_url l) "http" = true /\
  (forall c, In c (list_ascii_of_string (l_url l)) -> isQuote c = false) /\
  (forall c, In c (list_ascii_of_string (l_title l)) -> isQuote c = false).
Proof.
  unfold parseLinkCard. intros H. apply somesOf_In in H.
  apply in_map_iff in H as (attrs & H & _). revert H. unfold linkOfCard.
  destruct (attr "href" attrs) as [href|] eqn:Eh; [|discriminate].
  destruct (attr "title" attrs) as [title|] eqn:Et; [|discriminate].
  destruct (startsWith href "http") eqn:Es; [|discriminate].
  intros [= <-]. cbn [l_url l_title].
  apply attr_value in Eh as [_ Hh]. apply attr_value in Et as [_ Ht].
  split; [now apply startsWith_http_trim|].
  split; intros c Hc; apply trim_In in Hc; auto.
Qed.

Lemma scanTags_none (tag content : string) (skip : nat) :
  includes content tag = false -> scanTags tag content skip = [].
Proof.
  revert skip. induction content as [|x s IH]; intros skip H; [reflexivity|].
  cbn [includes] in H. apply orb_false_iff in H as [H1 H2].
  cbn [scanTags]. destruct skip as [|k]; [|now apply IH].
  unfold tagAt. destruct (dropPrefix tag (String x s)) eqn:E.
  - apply dropPrefix_prefix in E. congruence.
  - now apply IH.
Qed.

(** X20: each parser on its own tag: a page in which the text [<LinkCard]
    does not occur gives no link, whatever else it holds, and a page in which
    the text [<Card] does not occur gives no card. *)
Theorem parsers_without_tag (content : string) :
  (includes content "<LinkCard" = false -> parseLinkCard content = []) /\
  (includes content "<Card" = false -> parseCardComponent content = []).
Proof.
  split; intros H; unfold parseLinkCard, parseCardComponent;
    now rewrite scanTags_none.
Qed.

End ParserFacts.

(** ** The properties on sample inputs *)

Import Fixtures.

(** C1: on a dead link the first call of [validateUrl] answers [false]
    after one HEAD request, and the second call for the same address answers
    [true] without sending anything: the set [processedUrls] records that
    the address was seen, not what the check found. *)
Theorem validateUrl_dead_link_twice :
  let validate := validateUrl None deadNet noFork in
  let u := Some "https://example.com/dead" in
  let st1 := snd (validate u emptyState) in
  validate u emptyState = (Ok false, st1) /\
  requests st1 = [mkRequest HEAD "https://example.com/dead" None ""] /\
  validate u st1 = (Ok true, st1).
Proof. repeat split; vm_compute; reflexivity. Qed.

(** C6 (counterexample): the property fails on an address that ends in two slashes:
    each pass removes one of them. *)
Lemma normalizeUrl_two_slashes :
  normalizeUrl "https://x.dev//" = "https://x.dev/" /\
  normalizeUrl (normalizeUrl "https://x.dev//") = "https://x.dev" /\
  normalizeUrl (normalizeUrl "https://x.dev//") <> normalizeUrl "https://x.dev//".
Proof. repeat split; vm_compute; congruence. Qed.

Lemma normalizeUrl_idempotent_witness :
  endsWith "HTTPS://Example.com/Docs/" "//" = false /\
  normalizeUrl (normalizeUrl "HTTPS://Example.com/Docs/")
  = normalizeUrl "HTTPS://Example.com/Docs/".
Proof.
  split; [reflexivity|].
  apply (normalizeUrl_idempotent "HTTPS://Example.com/Docs/"). reflexivity.
Defined.

(** C7 (counterexample): the property fails on an item without any address. *)
Lemma isDuplicate_blank_not_refl : isDuplicate blank blank = false.
Proof. reflexivity. Qed.

Lemma isDuplicate_refl_witness :
  (url urlOnly = Some "https://x.dev" /\ "https://x.dev" <> "" /\ "https://x.dev" <> "/")
  /\ isDuplicate urlOnly urlOnly = true.
Proof.
  split; [repeat split; discriminate|].
  apply (isDuplicate_refl urlOnly "https://x.dev"); [reflexivity | discriminate | discriminate].
Defined.

(** C8 (counterexample): the property fails between an item that has only a
    [homepage] and an item with the same address as [url]. *)
Lemma isDuplicate_homepage_not_sym :
  isDuplicate homepageOnly urlOnly = true /\
  isDuplicate urlOnly homepageOnly = false /\
  isDuplicate homepageOnly urlOnly <> isDuplicate urlOnly homepageOnly.
Proof. repeat split; vm_compute; congruence. Qed.

Lemma isDuplicate_sym_witness :
  (truthy (url urlOnly) || negb (truthy (homepage urlOnly)) = true /\
   truthy (url galaxyRepo) || negb (truthy (homepage galaxyRepo)) = true)
  /\ isDuplicate urlOnly galaxyRepo = isDuplicate galaxyRepo urlOnly.
Proof.
  split; [split; reflexivity|].
  apply (isDuplicate_sym urlOnly galaxyRepo); reflexivity.
Defined.

Lemma isLikelySameTheme_galaxy_witness :
  normalizeThemeKey (title galaxyTitle) = "galaxy" /\
  normalizeThemeKey (Some (extractRepoSlug (url galaxyRepo))) = "galaxy" /\
  isLikelySameTheme galaxyTitle galaxyRepo = Bool true.
Proof.
  apply (isLikelySameTheme_galaxy galaxyTitle galaxyRepo "someone").
  - reflexivity.
  - discriminate.
  - intros x Hx. cbn in Hx.
    repeat (destruct Hx as [<- | Hx]; [reflexivity|]). destruct Hx.
  - reflexivity.
Defined.

(** C3 (counterexample): the property fails on a package described as a "VS Code
    extension": the text has no "vscode", so the package is a plugin. *)
Lemma fallback_vs_code_extension_is_plugin :
  includes (pkg_description i18n) "VS Code extension" = true /\
  fallbackCategorization [i18n]
  = {| c_plugins := [pkgEntry i18n]; c_themes := []; c_tools := [] |}.
Proof. split; reflexivity. Qed.

Lemma fallbackCategorization_assigns_witness :
  let packages := [nova; i18n; toPdf; blog] in
  let r := fallbackCategorization packages in
  (forall c, In (pkgEntry nova) (categorizedAs r c) <-> c = Themes) /\
  (forall c, In (pkgEntry toPdf) (categorizedAs r c) <-> c = Tools) /\
  (forall c, In (pkgEntry blog) (categorizedAs r c) <-> c = Plugins).
Proof.
  intros packages r. repeat split.
  - apply (fallbackCategorization_assigns packages nova); [cbn; tauto | reflexivity].
  - apply (fallbackCategorization_assigns packages nova); [cbn; tauto | reflexivity].
  - apply (fallbackCategorization_assigns packages toPdf); [cbn; tauto | reflexivity | reflexivity].
  - apply (fallbackCategorization_assigns packages toPdf); [cbn; tauto | reflexivity | reflexivity].
  - apply (fallbackCategorization_assigns packages blog); [cbn; tauto | reflexivity ..].
  - apply (fallbackCategorization_assigns packages blog); [cbn; tauto | reflexivity ..].
Defined.

(** A label that is an array is searched with [Array.prototype.includes]:
    the array of the one string "theme" makes the package a theme, an array
    without the exact strings "theme" and "tool" makes it a plugin. *)
Lemma categorizeSupplementary_array_labels :
  fst (categorizeSupplementary (Some "t") echoNet replyContent arrayJson
         [blog; toPdf] emptyState)
  = Ok {| c_plugins := [pkgEntry toPdf]; c_themes := [pkgEntry blog]; c_tools := [] |}.
Proof. vm_compute. reflexivity. Qed.

(** A label that is a number has no [includes]: the call throws at the third
    package and the whole list goes through the fallback heuristic. *)
Lemma categorizeSupplementary_number_label :
  labelLoop arrayLabels 0 [blog; toPdf; nova] emptyCategorized = None /\
  fst (categorizeSupplementary (Some "t") echoNet replyContent arrayJson
         [blog; toPdf; nova] emptyState)
  = Ok (fallbackCategorization [blog; toPdf; nova]).
Proof. split; vm_compute; reflexivity. Qed.

Lemma checkGitHubRepo_policy_witness :
  githubMatch "https://github.com/withastro/starlight" = Some ("withastro", "starlight") /\
  checkGitHubRepo None deadNet noFork "https://github.com/withastro/starlight" emptyState
  = (Ok false,
     logRequest (mkRequest GET "https://api.github.com/repos/withastro/starlight" None "")
                emptyState).
Proof.
  split; [reflexivity|].
  pose proof (checkGitHubRepo_policy None deadNet noFork
                "https://github.com/withastro/starlight" "withastro" "starlight"
                emptyState eq_refl) as (Hst & _ & _ & H404 & _).
  specialize (H404 (mkResponse 404 "") eq_refl eq_refl).
  destruct (checkGitHubRepo None deadNet noFork _ emptyState) as [r s].
  cbn [fst snd] in *. now subst.
Defined.

(** C2 (counterexample): the property fails between two registry packages that share
    a home page: both are merged into the plugins, next to the official
    plugin, and each is a duplicate of the other. *)
Lemma collectAllData_registry_duplicates :
  let outcome :=
    collectAllData None monoNet noFork monoCards noLinks noLinks noLinks
      noListing noYaml monoSearch noContent noLabels byteCompare emptyState in
  fst outcome = Ok tt /\
  plugins (officialData (snd outcome)) = [entryA; entryB; ofLink blogLink] /\
  entryA <> entryB /\
  isDuplicate entryA entryB = true /\
  isDuplicate entryB entryA = true.
Proof. repeat split; vm_compute; congruence. Qed.

(** Two entries of one official page are never compared: an official page
    that lists one repository twice gives two plugins that are duplicates of
    each other. *)
Lemma collectAllData_official_duplicates :
  let outcome :=
    collectAllData None echoNet noFork twinCards noLinks noLinks noLinks
      noListing noYaml noSearch noContent noLabels byteCompare emptyState in
  fst outcome = Ok tt /\
  plugins (officialData (snd outcome)) = [ofLink blogTwin; ofLink blogLink] /\
  ofLink blogLink <> ofLink blogTwin /\
  isDuplicate (ofLink blogLink) (ofLink blogTwin) = true /\
  isDuplicate (ofLink blogTwin) (ofLink blogLink) = true.
Proof. repeat split; vm_compute; congruence. Qed.

(** The merge on a sample: of the three showcase documents only the first
    gives a new site, the second duplicates it and the third duplicates the
    official site; of the three registry packages the listed plugin is
    dropped and the two that share a home page are both merged. *)
Lemma collectAllData_merge_sample :
  let outcome :=
    collectAllData None echoNet noFork echoCards echoShowcases noLinks noLinks
      echoListing echoYaml echoSearch noContent noLabels byteCompare emptyState in
  fst outcome = Ok tt /\
  showcases (officialData (snd outcome)) = [siteA; ofLink siteC] /\
  plugins (officialData (snd outcome)) = [entryA; entryB; ofLink blogLink].
Proof. repeat split; vm_compute; reflexivity. Qed.

Lemma collectAllData_new_entries_witness :
  let collect :=
    collectAllData None echoNet noFork echoCards echoShowcases noLinks noLinks
      echoListing echoYaml echoSearch noContent noLabels byteCompare in
  let st' := snd (collect emptyState) in
  collect emptyState = (Ok tt, st') /\
  exists (st1 : State) (added : Category -> list Item),
    fetchOfficialSources echoNet echoCards echoShowcases noLinks noLinks emptyState
    = (Ok tt, st1) /\
    (forall c, Permutation (itemsOf c (officialData st'))
                           (itemsOf c (officialData st1) ++ added c)) /\
    added Videos = [] /\ added Articles = [] /\
    (forall c x y, In x (added c) -> In y (itemsOf c (officialData st1)) ->
       isDuplicate x y = false /\ isDuplicate y x = false) /\
    (forall x y, In x (added Themes) -> In y (themes (officialData st1)) ->
       matchesTheme x y = false) /\
    ForallOrdPairs (fun x y => isDuplicate x y = false /\ isDuplicate y x = false)
                   (added Showcases).
Proof.
  intros collect st'.
  assert (H : collect emptyState = (Ok tt, st')) by (vm_compute; reflexivity).
  split; [exact H|].
  exact (collectAllData_new_entries None echoNet noFork echoCards echoShowcases
           noLinks noLinks echoListing echoYaml echoSearch noContent noLabels
           byteCompare emptyState st' H).
Defined.

(** C4 (counterexample): the property fails when an official page cannot be fetched:
    the error reaches [run], which ends with exit status 1. *)
Lemma official_page_failure_aborts :
  let collect :=
    collectAllData None pluginsDownNet noFork noLinks noLinks noLinks noLinks
      noListing noYaml noSearch noContent noLabels byteCompare in
  let start :=
    run None pluginsDownNet noFork noLinks noLinks noLinks noLinks
      noListing noYaml noSearch noContent noLabels byteCompare keepReadme in
  fetchFails (pluginsDownNet [] (originRequest None OfficialPlugins)) = true /\
  fst (collect emptyState) = Throw /\
  fst (start emptyState) = Exit1.
Proof. repeat split; vm_compute; reflexivity. Qed.

Lemma origin_failure_witness :
  (* the showcase listing answers 404: no site, and the run goes on *)
  ((forall sent, fetchFails (monoNet sent (originRequest None AstroShowcase)) = true) /\
   fetchAstroShowcase None monoNet noFork noListing noYaml emptyState
   = (Ok [], logRequest (originRequest None AstroShowcase) emptyState) /\
   exists st',
     collectAllData None monoNet noFork monoCards noLinks noLinks noLinks
       noListing noYaml monoSearch noContent noLabels byteCompare emptyState
     = (Ok tt, st') /\
     showcases (officialData st') = [] /\
     run None monoNet noFork monoCards noLinks noLinks noLinks
       noListing noYaml monoSearch noContent noLabels byteCompare keepReadme emptyState
     = (Completed, st')) /\
  (* the official plugin page is unreachable *)
  ((forall sent, fetchFails (pluginsDownNet sent (originRequest None OfficialPlugins)) = true) /\
   exists st',
     collectAllData None pluginsDownNet noFork noLinks noLinks noLinks noLinks
       noListing noYaml noSearch noContent noLabels byteCompare emptyState
     = (Throw, st') /\
     run None pluginsDownNet noFork noLinks noLinks noLinks noLinks
       noListing noYaml noSearch noContent noLabels byteCompare keepReadme emptyState
     = (Exit1, st')) /\
  (* the registry answers 503 *)
  ((forall sent, fetchFails (registryDownNet sent (originRequest None NpmSearch1)) = true) /\
   exists st',
     collectAllData None registryDownNet noFork noLinks noLinks noLinks noLinks
       noListing noYaml noSearch noContent noLabels byteCompare emptyState
     = (Throw, st') /\
     run None registryDownNet noFork noLinks noLinks noLinks noLinks
       noListing noYaml noSearch noContent noLabels byteCompare keepReadme emptyState
     = (Exit1, st')).
Proof.
  split; [|split].
  - split; [intros sent; reflexivity|].
    pose proof (origin_failure None monoNet noFork monoCards noLinks noLinks noLinks
                  noListing noYaml monoSearch noContent noLabels byteCompare keepReadme
                  AstroShowcase emptyState (fun sent => eq_refl)) as [Hfetch Hrun].
    split; [exact Hfetch|].
    set (st1 := snd (fetchOfficialSources monoNet monoCards noLinks noLinks noLinks
                       emptyState)).
    set (search := fetchSupplementaryNPM monoNet monoSearch
                     (logRequest (originRequest None AstroShowcase) st1)).
    destruct (Hrun st1 (snd search)
                (match fst search with Ok packages => packages | Throw => [] end))
      as (st' & Hc & Hs & Hr); [vm_compute; reflexivity | vm_compute; reflexivity|].
    exists st'. split; [exact Hc|]. split; [exact Hs|]. exact Hr.
  - split; [intros sent; reflexivity|].
    apply (origin_failure None pluginsDownNet noFork noLinks noLinks noLinks noLinks
             noListing noYaml noSearch noContent noLabels byteCompare keepReadme
             OfficialPlugins emptyState).
    intros sent; reflexivity.
  - split; [intros sent; reflexivity|].
    apply (origin_failure None registryDownNet noFork noLinks noLinks noLinks noLinks
             noListing noYaml noSearch noContent noLabels byteCompare keepReadme
             NpmSearch1 emptyState).
    intros sent; reflexivity.
Defined.

(** ** The further properties on sample inputs *)

Import Samples.

Lemma someone_no_slash (x : ascii) :
  In x (list_ascii_of_string "someone") -> notSlash x = true.
Proof.
  intros Hx. cbn in Hx. repeat (destruct Hx as [<- | Hx]; [reflexivity|]). destruct Hx.
Qed.

Lemma other_no_slash (x : ascii) :
  In x (list_ascii_of_string "other") -> notSlash x = true.
Proof.
  intros Hx. cbn in Hx. repeat (destruct Hx as [<- | Hx]; [reflexivity|]). destruct Hx.
Qed.

Lemma starlight_blog_chars (x : ascii) :
  In x (list_ascii_of_string "starlight-blog") -> repoChar x = true.
Proof.
  intros Hx. cbn in Hx. repeat (destruct Hx as [<- | Hx]; [reflexivity|]). destruct Hx.
Qed.

Lemma starlight_blog_no_slash (x : ascii) :
  In x (list_ascii_of_string "starlight-blog") -> notSlash x = true.
Proof.
  intros Hx. cbn in Hx. repeat (destruct Hx as [<- | Hx]; [reflexivity|]). destruct Hx.
Qed.

Lemma extractRepoSlug_ignores_tail_witness :
  extractRepoSlug (Some "https://github.com/someone/starlight-blog/tree/main#readme")
  = "starlight-blog" /\
  extractRepoSlug (Some "https://github.com/someone/starlight-blog") = "starlight-blog".
Proof.
  apply (extractRepoSlug_ignores_tail "someone" "starlight-blog" "tree/main#readme" "/").
  - discriminate.
  - exact someone_no_slash.
  - discriminate.
  - exact starlight_blog_chars.
  - reflexivity.
Defined.

Lemma isDuplicate_same_repo_name_witness :
  isDuplicate (entry (Some "Blog") (Some "https://github.com/someone/starlight-blog") "")
              (entry (Some "Fork") (Some "https://github.com/other/starlight-blog") "")
  = true.
Proof.
  apply (isDuplicate_same_repo_name _ _ "someone" "other" "starlight-blog").
  - discriminate.
  - discriminate.
  - exact someone_no_slash.
  - exact other_no_slash.
  - discriminate.
  - exact starlight_blog_chars.
  - reflexivity.
  - reflexivity.
Defined.

Lemma normalizeThemeKey_alnum_witness :
  In "n"%char (list_ascii_of_string (normalizeThemeKey (Some "Starlight Theme Nova!"))) /\
  isAlnumLower "n" = true.
Proof.
  assert (H : In "n"%char
                 (list_ascii_of_string (normalizeThemeKey (Some "Starlight Theme Nova!"))))
    by (cbv; tauto).
  split; [exact H|].
  exact (normalizeThemeKey_alnum (Some "Starlight Theme Nova!") "n" H).
Defined.

Lemma sortByPackageName_scoped_witness :
  sortByPackageName (Some "@someone/starlight-blog") = "starlight-blog".
Proof.
  exact (sortByPackageName_scoped "someone" "starlight-blog"
           someone_no_slash starlight_blog_no_slash).
Defined.

Lemma validateUrl_records_address_witness :
  isEmpty " https://example.com/dead " = false /\
  exists b st',
    validateUrl None deadNet noFork (Some " https://example.com/dead ") emptyState
    = (Ok b, st') /\
    officialData st' = officialData emptyState /\
    processedUrls st' = {[ trim " https://example.com/dead " ]} ∪ processedUrls emptyState.
Proof.
  split; [reflexivity|].
  apply (validateUrl_records_address None deadNet noFork). reflexivity.
Defined.

Lemma validateUrl_same_trim_witness :
  let validate := validateUrl None deadNet noFork in
  let st1 := snd (validate (Some " https://example.com/dead") emptyState) in
  trim " https://example.com/dead" = trim "https://example.com/dead  " /\
  validate (Some "https://example.com/dead  ") st1 = (Ok true, st1).
Proof.
  intros validate st1. split; [reflexivity|].
  apply (validateUrl_same_trim None deadNet noFork
           " https://example.com/dead" "https://example.com/dead  " emptyState st1
           (fst (validate (Some " https://example.com/dead") emptyState)));
    [reflexivity | reflexivity | reflexivity |].
  subst validate st1. apply surjective_pairing.
Defined.

Lemma fetchSupplementaryNPM_names_witness :
  let out := fetchSupplementaryNPM monoNet monoSearch emptyState in
  let packages :=
    [ mkPackage "starlight-blog" "Astro Starlight plugin to add a blog"
        (Some "https://github.com/HiDeoo/starlight-blog/tree/main/packages/starlight-blog") [];
      mkPackage "starlight-a" "Astro Starlight plugin a" (Some "https://example.com/mono") [];
      mkPackage "starlight-b" "Astro Starlight plugin b" (Some "https://example.com/mono") [] ] in
  out = (Ok packages, snd out) /\
  List.NoDup (map pkg_name packages) /\
  forall p, In p packages -> includes (pkg_name p) "starlight" = true.
Proof.
  intros out packages.
  assert (H : out = (Ok packages, snd out)) by (vm_compute; reflexivity).
  split; [exact H|].
  exact (fetchSupplementaryNPM_names monoNet monoSearch emptyState (snd out) packages H).
Defined.

Lemma categorizeSupplementary_no_token_witness :
  truthy (Some "") = false /\
  categorizeSupplementary (Some "") downNet noContent noLabels [nova; toPdf] emptyState
  = (Ok (fallbackCategorization [nova; toPdf]), emptyState).
Proof.
  split; [reflexivity|].
  apply (categorizeSupplementary_no_token (Some "") downNet noContent noLabels). reflexivity.
Defined.

Lemma collectAllData_keeps_official_witness :
  let collect :=
    collectAllData None monoNet noFork monoCards noLinks noLinks noLinks
      noListing noYaml monoSearch noContent noLabels byteCompare in
  let st' := snd (collect emptyState) in
  collect emptyState = (Ok tt, st') /\
  exists st1,
    fetchOfficialSources monoNet monoCards noLinks noLinks noLinks emptyState
    = (Ok tt, st1) /\
    (forall (c : Category) (x : Item),
       In x (itemsOf c (officialData st1)) -> In x (itemsOf c (officialData st'))) /\
    Permutation (videos (officialData st')) (videos (officialData st1)) /\
    Permutation (articles (officialData st')) (articles (officialData st1)).
Proof.
  intros collect st'.
  assert (H : collect emptyState = (Ok tt, st')) by (vm_compute; reflexivity).
  split; [exact H|].
  exact (collectAllData_keeps_official None monoNet noFork monoCards noLinks noLinks
           noLinks noListing noYaml monoSearch noContent noLabels byteCompare
           emptyState st' H).
Defined.

Lemma updateReadme_idempotent_witness :
  let r := match Readme.updateReadme false sampleReadme sampleData with
           | Ok r => r
           | Throw => ""
           end in
  (Readme.indexOf sampleReadme Readme.startMarker = Some 20 /\
   Readme.indexOf sampleReadme Readme.endMarker = Some 67 /\
   20 + String.length Readme.startMarker <= 67 /\
   includes (Readme.generateMarkdown sampleData) Readme.endMarker = false /\
   Readme.updateReadme false sampleReadme sampleData = Ok r) /\
  r <> sampleReadme /\
  Readme.updateReadme false r sampleData = Ok r.
Proof.
  intros r.
  assert (H1 : Readme.indexOf sampleReadme Readme.startMarker = Some 20)
    by (vm_compute; reflexivity).
  assert (H2 : Readme.indexOf sampleReadme Readme.endMarker = Some 67)
    by (vm_compute; reflexivity).
  assert (H3 : 20 + String.length Readme.startMarker <= 67) by (vm_compute; lia).
  assert (H4 : includes (Readme.generateMarkdown sampleData) Readme.endMarker = false)
    by (vm_compute; reflexivity).
  assert (H5 : Readme.updateReadme false sampleReadme sampleData = Ok r)
    by (vm_compute; reflexivity).
  split; [repeat split; assumption|].
  split; [vm_compute; discriminate|].
  exact (ReadmeFacts.updateReadme_idempotent sampleReadme r sampleData 20 67 H1 H2 H3 H4 H5).
Defined.

Lemma generateMarkdown_heading_witness :
  itemsOf Showcases sampleData <> [] /\
  includes (Readme.generateMarkdown sampleData) "## Showcases" = true.
Proof.
  assert (H : itemsOf Showcases sampleData <> []) by discriminate.
  split; [exact H|].
  exact (ReadmeFacts.generateMarkdown_heading sampleData Showcases H).
Defined.

Lemma parseLinkCard_links_witness :
  let l := mkLink "Starlight Blog" "https://github.com/HiDeoo/starlight-blog" "Add a blog" in
  Parsers.parseLinkCard samplePage = [l] /\
  startsWith (l_url l) "http" = true /\
  (forall c, In c (list_ascii_of_string (l_url l)) -> Parsers.isQuote c = false) /\
  (forall c, In c (list_ascii_of_string (l_title l)) -> Parsers.isQuote c = false).
Proof.
  intros l.
  assert (H : Parsers.parseLinkCard samplePage = [l]) by (vm_compute; reflexivity).
  split; [exact H|].
  apply (ParserFacts.parseLinkCard_links samplePage l). rewrite H. now left.
Defined.

Lemma parsers_without_tag_witness :
  (includes cardPage "<LinkCard" = false /\ includes cardPage "<Card" = true /\
   Parsers.parseLinkCard cardPage = []) /\
  (includes plainPage "<Card" = false /\ Parsers.parseCardComponent plainPage = []).
Proof.
  split.
  - split; [reflexivity|]. split; [reflexivity|].
    apply (proj1 (ParserFacts.parsers_without_tag cardPage)). reflexivity.
  - split; [reflexivity|].
    apply (proj2 (ParserFacts.parsers_without_tag plainPage)). reflexivity.
Defined.
